(** * scripts/setup_auth_auto.py: callback capture, repository resolution,
      process outcome.

    A shallow embedding of the parts of [scripts/setup_auth_auto.py] that
    carry state or a failure policy: the OAuth callback handler and the
    class-level result cell it mutates, the repository slug resolution, and
    [main] together with the [__main__] block that turns its outcome into a
    process exit code. The script declares the secret-name sets but not the
    function that evaluates them; the group rule is modelled from the
    specification of the synchronizer, in module [Sync].

    Python [str] values are modelled as [string] (a sequence of bytes, the
    UTF-8 encoding of the text), [Optional[str]] as [option string], sets of
    names as [gset string] and the dictionary returned by
    [urllib.parse.parse_qs] as [gmap string (list string)]. Calls that leave
    the process (commands, files, the terminal) are answered by a record of
    their outcomes, so that every function stays executable. *)

From Stdlib Require Import ZArith Ascii String DecimalString.
From stdpp Require Import gmap strings list fin_maps.

Local Open Scope string_scope.

(** ** Python values *)

Module Py.

(** Truth value of a [str]: only the empty string is false. *)
Definition truthy (s : string) : bool :=
  match s with
  | EmptyString => false
  | String _ _ => true
  end.

(** Truth value of an [Optional[str]]: [None] and [""] are false. *)
Definition truthy_opt (o : option string) : bool :=
  match o with
  | None => false
  | Some s => truthy s
  end.

(** [str(n)] for a non-negative integer. *)
Definition str_of_nat (n : nat) : string :=
  NilEmpty.string_of_uint (Nat.to_uint n).

(** The characters [html.escape(s, quote=True)] rewrites. *)
Definition escape_char (c : ascii) : string :=
  if decide (c = "&"%char) then "&amp;"
  else if decide (c = "<"%char) then "&lt;"
  else if decide (c = ">"%char) then "&gt;"
  else if decide (c = Ascii.ascii_of_nat 34) then "&quot;"
  else if decide (c = "'"%char) then "&#x27;"
  else String c EmptyString.

(** [html.escape(s, quote=True)]. The library replaces [&] first and the
    other four characters afterwards; no replacement text contains one of
    the four, so the result is the character-wise substitution. *)
Fixpoint html_escape (s : string) : string :=
  match s with
  | EmptyString => EmptyString
  | String c rest => escape_char c ++ html_escape rest
  end.

End Py.

(** ** Module constants *)

Definition CALLBACK_PATH : string := "/exchange_token".

Definition STATUS_SKIPPED : string := "SKIPPED".

Definition STRAVA_REQUIRED_SECRET_NAMES : gset string :=
  {[ "STRAVA_CLIENT_ID"; "STRAVA_CLIENT_SECRET"; "STRAVA_REFRESH_TOKEN" ]}.

(** ** Data classes *)


(** [@dataclass CallbackResult]; both fields default to [None]. *)
Record CallbackResult := mkCallbackResult {
  code : option string;
  error : option string;
}.

(** [CallbackResult()]. *)
Definition CallbackResult_new : CallbackResult :=
  {| code := None; error := None |}.

(** ** The callback handler *)

Module Handler.

(** The class attributes of [OAuthCallbackHandler]. Every handler instance
    reaches them through [self.__class__], so all requests served by the
    class read and assign the fields of one and the same [CallbackResult]
    object: the handler state is threaded from request to request. *)
Record cls := mkCls {
  result : CallbackResult;
  expected_state : string;
}.

(** The class as defined: [result = CallbackResult()],
    [expected_state = ""]. *)
Definition initial : cls :=
  {| result := CallbackResult_new; expected_state := "" |}.

(** A GET request whose target [urlparse] accepts: [req_path] is
    [urlparse(self.path).path] and [req_pairs] lists, decoded and in their
    order of occurrence, the name/value pairs of the components of
    [urlparse(self.path).query] that contain an [=]. A value may be blank. *)
Record request := mkRequest {
  req_path : string;
  req_pairs : list (string * string);
}.

(** The outcome of [urllib.parse.urlparse(self.path)], the first statement
    of [do_GET]: the call raises [ValueError] on some targets, for instance
    on [http://[/exchange_token], whose authority has an unmatched
    bracket. *)
Inductive target :=
| Unparseable
| Parsed (req : request).

(** What the handler sends back: [send_error(status, message)], or
    [send_response(status)] followed by the headers and the body. *)
Inductive response :=
| SendError (status : nat) (message : string)
| Response (status : nat) (headers : list (string * string)) (body : string).

(** The pairs [urllib.parse.parse_qs] keeps: [keep_blank_values] is off,
    so a pair with a blank value is dropped. *)
Definition kept (pairs : list (string * string)) : list (string * string) :=
  filter (λ p, p.2 ≠ "") pairs.

(** [urllib.parse.parse_qs]: the kept pairs are grouped by name, every value
    is appended to the list of its name. *)
Definition parse_qs_step (parsed : gmap string (list string))
    (p : string * string) : gmap string (list string) :=
  match parsed !! p.1 with
  | Some vs => <[p.1 := (vs ++ [p.2])%list]> parsed
  | None => <[p.1 := [p.2]]> parsed
  end.

Definition parse_qs (pairs : list (string * string))
    : gmap string (list string) :=
  foldl parse_qs_step ∅ (kept pairs).

(** [query.get(key, [""])[0]]; [None] stands for the [IndexError] that
    indexing an empty list raises. *)
Definition query_first (query : gmap string (list string)) (key : string)
    : option string :=
  match query !! key with
  | None => Some ""
  | Some [] => None
  | Some (v :: _) => Some v
  end.

Definition set_error (r : CallbackResult) (msg : string) : CallbackResult :=
  {| code := code r; error := Some msg |}.

Definition set_code (r : CallbackResult) (c : string) : CallbackResult :=
  {| code := Some c; error := error r |}.

Definition MSG_MISSING_CODE : string :=
  "Missing code query parameter in callback URL.".
Definition MSG_STATE_MISMATCH : string :=
  "State mismatch in callback. Please retry.".
Definition MSG_RECEIVED : string :=
  "Authorization received. You can close this tab and return to the terminal.".

(** The body of the page, before it is encoded. *)
Definition page (message : string) : string :=
  "<!doctype html><html><head><meta charset='utf-8'>"
  ++ "<title>Strava Auth</title></head><body>"
  ++ "<p>" ++ Py.html_escape message ++ "</p></body></html>".

Definition page_headers (body : string) : list (string * string) :=
  [ ("Content-Type", "text/html; charset=utf-8");
    ("Content-Length", Py.str_of_nat (String.length body)) ].

(** The [if]/[elif] chain of [do_GET]: which field of the shared result
    is assigned. *)
Definition assign (h : cls) (state code error : string) : CallbackResult :=
  if Py.truthy error then
    set_error (result h) ("Strava returned error: " ++ error)
  else if negb (Py.truthy code) then
    set_error (result h) MSG_MISSING_CODE
  else if negb (bool_decide (state = expected_state h)) then
    set_error (result h) MSG_STATE_MISMATCH
  else
    set_code (result h) code.

(** The message shown to the browser, read from the shared result after
    the assignment. *)
Definition message_of (r : CallbackResult) : string :=
  if Py.truthy_opt (error r) then
    "Authorization failed: " ++ default "" (error r)
  else MSG_RECEIVED.

(** [OAuthCallbackHandler.do_GET] from its second statement on, the target
    being parsed. [None] is an exception escaping the method. *)
Definition do_GET (h : cls) (req : request) : option (cls * response) :=
  if negb (bool_decide (req_path req = CALLBACK_PATH)) then
    Some (h, SendError 404 "Not Found")
  else
    let query := parse_qs (req_pairs req) in
    state ← query_first query "state";
    code ← query_first query "code";
    error ← query_first query "error";
    let r := assign h state code error in
    let h' := {| result := r; expected_state := expected_state h |} in
    let body := page (message_of r) in
    Some (h', Response 200 (page_headers body) body).

(** The requests of one listener, served one after the other on the shared
    class state; the responses are collected in order. *)
Fixpoint serve (h : cls) (reqs : list request)
    : option (cls * list response) :=
  match reqs with
  | [] => Some (h, [])
  | req :: rest =>
      '(h1, resp) ← do_GET h req;
      '(h2, resps) ← serve h1 rest;
      Some (h2, resp :: resps)
  end.

(** [OAuthCallbackHandler.do_GET] from its first statement: the
    [ValueError] of [urlparse] escapes the method before anything is sent
    or assigned. *)
Definition do_GET_at (h : cls) (t : target) : option (cls * response) :=
  match t with
  | Unparseable => None
  | Parsed req => do_GET h req
  end.

(** The requests of one listener, by their targets. A request on which the
    handler raises gets no response from it and leaves the class state as
    it was; the next request is served on that state. *)
Fixpoint serve_at (h : cls) (targets : list target)
    : cls * list (option response) :=
  match targets with
  | [] => (h, [])
  | t :: rest =>
      match do_GET_at h t with
      | None =>
          let '(h2, resps) := serve_at h rest in (h2, None :: resps)
      | Some (h1, resp) =>
          let '(h2, resps) := serve_at h1 rest in (h2, Some resp :: resps)
      end
  end.

(** The value of a query parameter as the handler reads it: the first
    non-blank value given for the name, the empty string when there is
    none. *)
Definition param (pairs : list (string * string)) (key : string) : string :=
  match filter (λ p, p.1 = key) (kept pairs) with
  | [] => ""
  | p :: _ => p.2
  end.

(** A callback request passes the three checks of the [if]/[elif] chain
    when it carries no error parameter, carries a code, and returns the
    expected state. *)
Definition passes_checks (expected : string) (pairs : list (string * string))
    : bool :=
  negb (Py.truthy (param pairs "error"))
  && Py.truthy (param pairs "code")
  && bool_decide (param pairs "state" = expected).

End Handler.

(** ** Exceptions and outcomes of calls *)

(** The exceptions the script distinguishes at top level. [SystemExit]
    carries its code ([None] or an integer); every subclass of [Exception]
    is kept by its class name only, since the message is printed and has no
    influence on control flow. *)
Inductive exn :=
| KeyboardInterrupt
| SystemExit (exit_code : option Z)
| Exception (class_name : string).

(** The outcome of a Python call: a returned value or a raised exception. *)
Inductive outcome (A : Type) :=
| Return (a : A)
| Raise (e : exn).
Arguments Return {A} a.
Arguments Raise {A} e.

(** Sequencing: an exception raised by the first call skips the rest. *)
#[global] Instance outcome_bind : MBind outcome := λ A B k o,
  match o with
  | Return a => k a
  | Raise e => Raise e
  end.

(** [subprocess.CompletedProcess] as returned with [capture_output=True]. *)
Record CompletedProcess := mkCompletedProcess {
  returncode : Z;
  stdout : string;
  stderr : string;
}.

(** ** Repository slug resolution *)

Module Repo.
Section Resolve.

(** [repo_helpers.normalize_repo_slug]: imported, its module is not part of
    this file. *)
Variable normalize_repo_slug : option string → option string.
(** The built-in [str.strip]. *)
Variable strip : string → string.

(** What the resolution reads from its environment: the outcome of
    [git config --get remote.origin.url], the [GH_REPO] entry of
    [os.environ], and the outcome of [gh repo view --json nameWithOwner].
    [_run] is called with [check=False], so a non-zero return code does not
    raise; launching the command still can. *)
Record env := mkEnv {
  run_git_remote : outcome CompletedProcess;
  environ_GH_REPO : option string;
  run_gh_repo_view : outcome CompletedProcess;
}.

Definition _normalize_repo_slug (value : option string) : option string :=
  normalize_repo_slug value.

Definition _repo_slug_from_git (e : env) : outcome (option string) :=
  result ← run_git_remote e;
  if negb (returncode result =? 0)%Z then Return None
  else Return (_normalize_repo_slug (Some (strip (stdout result)))).

Definition _repo_slug_from_gh_context (e : env) : outcome (option string) :=
  result ← run_gh_repo_view e;
  if negb (returncode result =? 0)%Z then Return None
  else Return (_normalize_repo_slug (Some (strip (stdout result)))).

(** The [for] loop over the candidates. *)
Fixpoint first_normalized (candidates : list (option string))
    : option string :=
  match candidates with
  | [] => None
  | candidate :: rest =>
      let normalized := _normalize_repo_slug candidate in
      if Py.truthy_opt normalized then normalized
      else first_normalized rest
  end.

(** The list literal of [_resolve_repo_slug]: its four elements are
    evaluated, in order, before the loop starts. *)
Definition candidates_of (explicit_repo : option string) (e : env)
    : outcome (list (option string)) :=
  from_git ← _repo_slug_from_git e;
  from_gh ← _repo_slug_from_gh_context e;
  Return [explicit_repo; from_git; environ_GH_REPO e; from_gh].

Definition _resolve_repo_slug (explicit_repo : option string) (e : env)
    : outcome (option string) :=
  candidates ← candidates_of explicit_repo e;
  Return (first_normalized candidates).

End Resolve.
End Repo.

(** ** [main] and the [__main__] block *)

Module Script.

(** The attributes of the parsed arguments that [main] and the
    environment bootstrap read. *)
Record Namespace := mkNamespace {
  local_only : bool;
  no_bootstrap_env : bool;
  env_bootstrapped : bool;
}.

(** Everything [main] obtains from outside the process, one field per
    call site, in the order of the calls. Commands give their return code
    when they could be run to completion. *)
Record world := mkWorld {
  w_parse_args : outcome Namespace;
  w_in_virtualenv : bool;
  w_requirements_exists : bool;
  w_venv_python_exists : bool;
  w_create_venv : outcome Z;
  w_pip_probe : outcome Z;
  w_ensurepip : outcome Z;
  w_pip_probe_again : outcome Z;
  w_pip_upgrade : outcome Z;
  w_pip_install : outcome Z;
  w_reexec : outcome Z;
  w_isatty : outcome bool;
  w_load_config : outcome unit;
  w_run_pipeline : outcome Z;
}.

(** [_run_stream]: [subprocess.run(cmd, check=True)]. *)
Definition _run_stream (cmd : outcome Z) : outcome unit :=
  rc ← cmd;
  if (rc =? 0)%Z then Return tt else Raise (Exception "CalledProcessError").

(** [_venv_has_pip]: [_run(..., check=False).returncode == 0]. *)
Definition _venv_has_pip (probe : outcome Z) : outcome bool :=
  rc ← probe; Return (rc =? 0)%Z.

Definition _ensure_venv_pip (w : world) : outcome unit :=
  has_pip ← _venv_has_pip (w_pip_probe w);
  if (has_pip : bool) then Return tt
  else
    ensure ← w_ensurepip w;
    if negb (ensure =? 0)%Z then Raise (Exception "RuntimeError")
    else
      has_pip_now ← _venv_has_pip (w_pip_probe_again w);
      if negb (has_pip_now : bool) then Raise (Exception "RuntimeError")
      else Return tt.

Definition _bootstrap_env_and_reexec (args : Namespace) (w : world)
    : outcome unit :=
  if no_bootstrap_env args || env_bootstrapped args || w_in_virtualenv w
  then Return tt
  else if negb (w_requirements_exists w) then Return tt
  else
    _ ← (if negb (w_venv_python_exists w)
           then _run_stream (w_create_venv w) else Return tt);
    _ ← _ensure_venv_pip w;
    _ ← _run_stream (w_pip_upgrade w);
    _ ← _run_stream (w_pip_install w);
    child ← w_reexec w;
    Raise (SystemExit (Some child)).

(** [main]. Its return value is [Optional[int]]: the function falls off
    its end, returning [None], when [--local-only] is not given. [_isatty()]
    can raise, when [sys.stdin] or [sys.stdout] is [None]. *)
Definition main (w : world) : outcome (option Z) :=
  args ← w_parse_args w;
  _ ← _bootstrap_env_and_reexec args w;
  interactive ← w_isatty w;
  if local_only args then
    _ ← w_load_config w;
    rc ← w_run_pipeline w;
    if negb (rc =? 0)%Z then Return (Some rc)
    else Return (Some 0%Z)
  else Return None.

(** The code a [SystemExit] ends the process with: [None] counts as 0. It
    is the value handed to the interpreter's exit; what the operating system
    keeps of it is outside the script. *)
Definition exit_status (c : option Z) : Z := default 0%Z c.

(** The [__main__] block: [raise SystemExit(main())] inside a [try] that
    turns [KeyboardInterrupt] into 130 and any [Exception] into 1. A
    [SystemExit] raised inside [main] is neither and passes through. *)
Definition run_script (w : world) : Z :=
  match main w with
  | Return v => exit_status v
  | Raise KeyboardInterrupt => 130%Z
  | Raise (Exception _) => 1%Z
  | Raise (SystemExit c) => exit_status c
  end.

End Script.

(** ** Required-secret groups

    The script declares the secret-name sets of the two providers, but the
    function that evaluates a group against the secrets present is not in
    this file; it is modelled from the specification of the synchronizer. *)

Module Sync.

(** Modelled from the spec: a group of required names with its
    satisfaction rule, given as alternative subsets. All-required is the
    rule with a single alternative. The function evaluating it is not in
    the script. *)
Record SecretGroup := mkSecretGroup {
  group_name : string;
  alternatives : list (gset string);
}.

(** Modelled from the spec: a group is satisfied when every name of one of
    its alternatives is present. *)
Definition satisfied (g : SecretGroup) (present : gset string) : bool :=
  existsb (λ alt, bool_decide (alt ⊆ present)) (alternatives g).




(** Modelled from the spec: the required group of the OAuth provider, all
    three names the script declares. *)
Definition strava_group : SecretGroup :=
  {| group_name := "Strava secrets";
     alternatives := [STRAVA_REQUIRED_SECRET_NAMES] |}.


End Sync.

(** ** Sample inputs *)

Module Sample.
Import Handler.

(** An authorization attempt that expects the state [s3cr3t]. *)
Definition attempt : cls :=
  {| result := CallbackResult_new; expected_state := "s3cr3t" |}.

Definition callback (pairs : list (string * string)) : request :=
  {| req_path := CALLBACK_PATH; req_pairs := pairs |}.

Definition req_valid : request :=
  callback [("state", "s3cr3t"); ("code", "abc123"); ("scope", "read")].
Definition req_valid_again : request :=
  callback [("state", "s3cr3t"); ("code", "zzz999")].
Definition req_forged : request :=
  callback [("state", "forged"); ("code", "abc123")].
Definition req_denied : request :=
  callback [("state", "s3cr3t"); ("error", "access_denied")].
Definition req_favicon : request :=
  {| req_path := "/favicon.ico"; req_pairs := [] |}.

(** A working tree without an [origin] remote ([git config] exits 1), with
    [GH_REPO] set, and a [gh] that answers with another repository. *)
Definition repo_env : Repo.env :=
  {| Repo.run_git_remote :=
       Return {| returncode := 1; stdout := ""; stderr := "" |};
     Repo.environ_GH_REPO := Some "octo/dashboard";
     Repo.run_gh_repo_view :=
       Return {| returncode := 0; stdout := "octo/other"; stderr := "" |} |}.

(** A stand-in for the imported normalizer, for evaluation only: it keeps
    a value that contains a slash and rejects every other one. *)
Fixpoint has_slash (s : string) : bool :=
  match s with
  | EmptyString => false
  | String c rest => bool_decide (c = "/"%char) || has_slash rest
  end.

Definition keep_slashed (value : option string) : option string :=
  match value with
  | Some s => if has_slash s then Some s else None
  | None => None
  end.

(** A run with [--local-only --no-bootstrap-env] whose pipeline ends with
    the given return code. *)
Definition local_run (pipeline_rc : Z) : Script.world :=
  {| Script.w_parse_args :=
       Return {| Script.local_only := true;
                 Script.no_bootstrap_env := true;
                 Script.env_bootstrapped := false |};
     Script.w_in_virtualenv := false;
     Script.w_requirements_exists := true;
     Script.w_venv_python_exists := true;
     Script.w_create_venv := Return 0%Z;
     Script.w_pip_probe := Return 0%Z;
     Script.w_ensurepip := Return 0%Z;
     Script.w_pip_probe_again := Return 0%Z;
     Script.w_pip_upgrade := Return 0%Z;
     Script.w_pip_install := Return 0%Z;
     Script.w_reexec := Return 0%Z;
     Script.w_isatty := Return true;
     Script.w_load_config := Return tt;
     Script.w_run_pipeline := Return pipeline_rc |}.

(** A run interrupted by the operator while the pipeline is running. *)
Definition interrupted_run : Script.world :=
  {| Script.w_parse_args :=
       Return {| Script.local_only := true;
                 Script.no_bootstrap_env := true;
                 Script.env_bootstrapped := false |};
     Script.w_in_virtualenv := false;
     Script.w_requirements_exists := true;
     Script.w_venv_python_exists := true;
     Script.w_create_venv := Return 0%Z;
     Script.w_pip_probe := Return 0%Z;
     Script.w_ensurepip := Return 0%Z;
     Script.w_pip_probe_again := Return 0%Z;
     Script.w_pip_upgrade := Return 0%Z;
     Script.w_pip_install := Return 0%Z;
     Script.w_reexec := Return 0%Z;
     Script.w_isatty := Return true;
     Script.w_load_config := Return tt;
     Script.w_run_pipeline := Raise KeyboardInterrupt |}.

End Sample.

(** ** What a sequence of callbacks leaves in the result *)

Module Replay.
Import Handler.

(** The message a callback stores when it fails one of the checks, in the
    order of the [if]/[elif] chain; [None] when it passes them all. *)
Definition rejection (expected : string) (pairs : list (string * string))
    : option string :=
  if Py.truthy (param pairs "error") then
    Some ("Strava returned error: " ++ param pairs "error")
  else if negb (Py.truthy (param pairs "code")) then Some MSG_MISSING_CODE
  else if negb (bool_decide (param pairs "state" = expected)) then
    Some MSG_STATE_MISMATCH
  else None.

(** The codes of the requests of a sequence that reach the callback path and
    pass the checks, in order of arrival. *)
Fixpoint accepted_codes (expected : string) (reqs : list request)
    : list string :=
  match reqs with
  | [] => []
  | req :: rest =>
      if bool_decide (req_path req = CALLBACK_PATH)
         && passes_checks expected (req_pairs req)
      then param (req_pairs req) "code" :: accepted_codes expected rest
      else accepted_codes expected rest
  end.

(** The messages of the requests of a sequence that reach the callback path
    and fail a check, in order of arrival. *)
Fixpoint rejections (expected : string) (reqs : list request) : list string :=
  match reqs with
  | [] => []
  | req :: rest =>
      if bool_decide (req_path req = CALLBACK_PATH) then
        match rejection expected (req_pairs req) with
        | Some msg => msg :: rejections expected rest
        | None => rejections expected rest
        end
      else rejections expected rest
  end.

(** The characters [html.escape] exists to remove. *)
Definition markup (c : ascii) : bool :=
  bool_decide (c = "<"%char) || bool_decide (c = ">"%char)
  || bool_decide (c = Ascii.ascii_of_nat 34) || bool_decide (c = "'"%char).

End Replay.

(** ** Text of an error output *)

Module Text.

(** In this module a [str] is the sequence of its code points, which is what
    [str.strip] and [str.splitlines] work on. *)
Abbreviation str := (list N).

(** The code points [str.strip] removes: the ASCII white space and the
    Unicode code points the interpreter classifies as white space. *)
Definition isspace (c : N) : bool :=
  ((9 <=? c) && (c <=? 13) || (28 <=? c) && (c <=? 31) || (c =? 32)
   || (c =? 133) || (c =? 160) || (c =? 5760)
   || (8192 <=? c) && (c <=? 8202)
   || (c =? 8232) || (c =? 8233) || (c =? 8239) || (c =? 8287)
   || (c =? 12288))%N.

(** The line boundaries of [str.splitlines]: LF, VT, FF, CR, FS, GS, RS,
    NEL, LINE SEPARATOR and PARAGRAPH SEPARATOR. *)
Definition islinebreak (c : N) : bool :=
  ((10 <=? c) && (c <=? 13) || (28 <=? c) && (c <=? 30)
   || (c =? 133) || (c =? 8232) || (c =? 8233))%N.

Fixpoint lstrip (s : str) : str :=
  match s with
  | [] => []
  | c :: rest => if isspace c then lstrip rest else s
  end.

Definition rstrip (s : str) : str := rev (lstrip (rev s)).

(** [str.strip()] without argument. *)
Definition strip (s : str) : str := rstrip (lstrip s).

(** [str.splitlines()] from inside a line: [cur] holds, reversed, the code
    points of the current line read so far. A boundary ends the line, CR
    followed by LF counting as one boundary, and a new line starts only when
    code points remain. *)
Fixpoint lines_from (cur : str) (s : str) : list str :=
  match s with
  | [] => [rev cur]
  | c :: rest =>
      if islinebreak c then
        rev cur ::
          match rest with
          | [] => []
          | d :: rest2 =>
              if (c =? 13)%N && (d =? 10)%N then
                match rest2 with
                | [] => []
                | _ :: _ => lines_from [] rest2
                end
              else lines_from [] rest
          end
      else lines_from (c :: cur) rest
  end.

(** [str.splitlines()]: the empty string has no line. *)
Definition splitlines (s : str) : list str :=
  match s with
  | [] => []
  | _ :: _ => lines_from [] s
  end.

(** The code points of an ASCII literal. *)
Definition literal (s : string) : str :=
  map (λ c, N_of_ascii c) (list_ascii_of_string s).

(** [_first_stderr_line]. The argument may be [None] ([stderr or ""]);
    the result is [None] when indexing the list of lines raises. *)
Definition _first_stderr_line (stderr : option str) : option str :=
  let text := strip (default [] stderr) in
  match text with
  | [] => Some (literal "Unknown error.")
  | _ :: _ => splitlines text !! 0
  end.

End Text.

(** ** Configuration files *)

Module Config.
Section Load.

Context {K : Type} `{Countable K} {V : Type}.

(** What [yaml.safe_load] returns for a file, as far as [load_config] can
    tell the documents apart: a false value ([None] for an empty file, an
    empty mapping or sequence, ...), which [or {}] replaces by an empty
    dictionary; a mapping; a sequence of key/value pairs, which
    [dict.update] also accepts; any other true value, on which
    [dict.update] raises the given exception. *)
Inductive document :=
| Falsy
| Mapping (m : gmap K V)
| Pairs (l : list (K * V))
| Unusable (class_name : string).

(** A configuration file: absent, or present with the outcome of opening
    and loading it. *)
Definition file : Type := option (outcome document).

(** [config.update(doc or {})]. *)
Definition update (config : gmap K V) (doc : document) : outcome (gmap K V) :=
  match doc with
  | Falsy => Return config
  | Mapping m => Return (m ∪ config)
  | Pairs l => Return (foldl (λ c p, <[p.1 := p.2]> c) config l)
  | Unusable class_name => Raise (Exception class_name)
  end.

(** One [if path.exists(): ... config.update(...)] block. *)
Definition load_file (config : gmap K V) (f : file) : outcome (gmap K V) :=
  match f with
  | None => Return config
  | Some loaded => doc ← loaded; update config doc
  end.

(** [load_config]: [config.yaml] first, [config.local.yaml] second. *)
Definition load_config (base_config local_config : file)
    : outcome (gmap K V) :=
  config ← load_file ∅ base_config;
  load_file config local_config.

(** The dictionary a file contributes when it loads: nothing when it is
    absent or holds a false document, its mapping, or its pairs with the
    last pair of a key winning. *)
Definition contents (f : file) : gmap K V :=
  match f with
  | Some (Return (Mapping m)) => m
  | Some (Return (Pairs l)) => foldl (λ c p, <[p.1 := p.2]> c) ∅ l
  | _ => ∅
  end.

(** The exception a file makes [load_config] raise, if any: the one raised
    while opening or loading it, or the one [dict.update] raises on its
    document. *)
Definition failure (f : file) : option exn :=
  match f with
  | Some (Raise e) => Some e
  | Some (Return (Unusable class_name)) => Some (Exception class_name)
  | _ => None
  end.

End Load.
End Config.

(** ** The interpreter version check *)

Module Startup.

(** Comparison [a < b] of two tuples of integers: the first differing
    position decides, and a proper prefix is smaller. *)
Fixpoint tuple_lt (a b : list Z) : bool :=
  match a, b with
  | _, [] => false
  | [], _ :: _ => true
  | x :: a', y :: b' =>
      if (x <? y)%Z then true
      else if (y <? x)%Z then false
      else tuple_lt a' b'
  end.

(** [sys.version_info < (3, 9)], on the numeric components of
    [sys.version_info] (major, minor, micro); the script stops at import
    time when it holds. *)
Definition too_old (version_info : list Z) : bool :=
  tuple_lt version_info [3%Z; 9%Z].

End Startup.

(** ** The commands of the environment bootstrap *)

Module Trace.

(** One call of [subprocess.run] or [subprocess.call]: the command and the
    working directory given to it. *)
Record invocation := mkInvocation {
  cmd : list string;
  cwd : option string;
}.

(** An outcome together with the commands run on the way, in order. *)
Record traced (A : Type) := mkTraced {
  log : list invocation;
  out : outcome A;
}.
Arguments mkTraced {A} log out.
Arguments log {A} t.
Arguments out {A} t.

#[global] Instance traced_bind : MBind traced := λ A B k t,
  match out t with
  | Return a => {| log := (log t ++ log (k a))%list; out := out (k a) |}
  | Raise e => {| log := log t; out := Raise e |}
  end.

(** The bootstrap is skipped on a flag, inside a virtual environment, or
    without a requirements file. *)
Definition skipped (args : Script.Namespace) (w : Script.world) : bool :=
  Script.no_bootstrap_env args || Script.env_bootstrapped args
  || Script.w_in_virtualenv w || negb (Script.w_requirements_exists w).

(** A step that runs no command. *)
Definition pure {A} (o : outcome A) : traced A := {| log := []; out := o |}.

(** A step that runs one command, with the given outcome. *)
Definition run {A} (i : invocation) (o : outcome A) : traced A :=
  {| log := [i]; out := o |}.

Section Bootstrap.

(** [os.path.join] applied to the listed components. *)
Variable join : list string → string.

(** What the bootstrap reads from the interpreter: [sys.executable],
    [sys.argv], [os.name], the result of [_project_root()], the absolute
    path of the script, and the project root as [main] computes it. *)
Record interp := mkInterp {
  executable : string;
  argv : list string;
  os_name : string;
  root : string;
  script_path : string;
  resolved_root : string;
}.

Definition VENV_DIRNAME : string := ".venv".
Definition ENV_BOOTSTRAPPED : string := "--env-bootstrapped".

Definition _venv_python_path (s : interp) (venv_dir : string) : string :=
  if bool_decide (os_name s = "nt") then join [venv_dir; "Scripts"; "python.exe"]
  else join [venv_dir; "bin"; "python"].

(** The arguments handed to the re-executed script. *)
Definition child_args (s : interp) : list string :=
  (filter (λ arg, arg ≠ ENV_BOOTSTRAPPED) (drop 1 (argv s))
   ++ [ENV_BOOTSTRAPPED])%list.

(** [_run_stream(cmd, cwd=cwd)]. *)
Definition _run_stream (command : list string) (dir : string)
    (o : outcome Z) : traced unit :=
  run {| cmd := command; cwd := Some dir |} (Script._run_stream o).

(** [_venv_has_pip(venv_python)]. *)
Definition _venv_has_pip (venv_python : string) (o : outcome Z)
    : traced bool :=
  run {| cmd := [venv_python; "-m"; "pip"; "--version"]; cwd := None |}
      (Script._venv_has_pip o).

Definition _ensure_venv_pip (venv_python : string) (w : Script.world)
    : traced unit :=
  has_pip ← _venv_has_pip venv_python (Script.w_pip_probe w);
  if (has_pip : bool) then pure (Return tt)
  else
    ensure ← run {| cmd := [venv_python; "-m"; "ensurepip"; "--upgrade"];
                    cwd := None |} (Script.w_ensurepip w);
    if negb (ensure =? 0)%Z then pure (Raise (Exception "RuntimeError"))
    else
      has_pip_now ← _venv_has_pip venv_python (Script.w_pip_probe_again w);
      if negb (has_pip_now : bool) then pure (Raise (Exception "RuntimeError"))
      else pure (Return tt).

Definition _bootstrap_env_and_reexec (s : interp) (args : Script.Namespace)
    (w : Script.world) : traced unit :=
  if Script.no_bootstrap_env args || Script.env_bootstrapped args
     || Script.w_in_virtualenv w
  then pure (Return tt)
  else
    let requirements := join [root s; "requirements.txt"] in
    if negb (Script.w_requirements_exists w) then pure (Return tt)
    else
      let venv_dir := join [root s; VENV_DIRNAME] in
      let venv_python := _venv_python_path s venv_dir in
      _ ← (if negb (Script.w_venv_python_exists w)
           then _run_stream [executable s; "-m"; "venv"; venv_dir] (root s)
                  (Script.w_create_venv w)
           else pure (Return tt));
      _ ← _ensure_venv_pip venv_python w;
      _ ← _run_stream [venv_python; "-m"; "pip"; "install"; "--upgrade"; "pip"]
            (root s) (Script.w_pip_upgrade w);
      _ ← _run_stream [venv_python; "-m"; "pip"; "install"; "-r"; requirements]
            (root s) (Script.w_pip_install w);
      child ← run {| cmd := venv_python :: script_path s :: child_args s;
                     cwd := Some (root s) |} (Script.w_reexec w);
      pure (Raise (SystemExit (Some child))).

(** [main] with the commands it runs. Parsing the arguments, asking for
    the terminal and loading the configuration run no command. *)
Definition main (s : interp) (w : Script.world) : traced (option Z) :=
  args ← pure (Script.w_parse_args w);
  _ ← _bootstrap_env_and_reexec s args w;
  interactive ← pure (Script.w_isatty w);
  if Script.local_only args then
    _ ← pure (Script.w_load_config w);
    rc ← run {| cmd := [executable s; "scripts/run_pipeline.py"];
                cwd := Some (resolved_root s) |} (Script.w_run_pipeline w);
    if negb (rc =? 0)%Z then pure (Return (Some rc))
    else pure (Return (Some 0%Z))
  else pure (Return None).

End Bootstrap.
End Trace.

(** ** More sample inputs *)

Module Cases.

(** A first run outside any virtual environment: the virtual environment
    is created, pip has to be installed by [ensurepip], and the re-executed
    script ends with code 3. The parent's own configuration would not even
    load. *)
Definition bootstrapping_run : Script.world :=
  {| Script.w_parse_args :=
       Return {| Script.local_only := true;
                 Script.no_bootstrap_env := false;
                 Script.env_bootstrapped := false |};
     Script.w_in_virtualenv := false;
     Script.w_requirements_exists := true;
     Script.w_venv_python_exists := false;
     Script.w_create_venv := Return 0%Z;
     Script.w_pip_probe := Return 1%Z;
     Script.w_ensurepip := Return 0%Z;
     Script.w_pip_probe_again := Return 0%Z;
     Script.w_pip_upgrade := Return 0%Z;
     Script.w_pip_install := Return 0%Z;
     Script.w_reexec := Return 3%Z;
     Script.w_isatty := Return true;
     Script.w_load_config := Raise (Exception "YAMLError");
     Script.w_run_pipeline := Return 0%Z |}.

(** The same run, except that installing the requirements fails. *)
Definition failing_install_run : Script.world :=
  {| Script.w_parse_args := Script.w_parse_args bootstrapping_run;
     Script.w_in_virtualenv := false;
     Script.w_requirements_exists := true;
     Script.w_venv_python_exists := false;
     Script.w_create_venv := Return 0%Z;
     Script.w_pip_probe := Return 1%Z;
     Script.w_ensurepip := Return 0%Z;
     Script.w_pip_probe_again := Return 0%Z;
     Script.w_pip_upgrade := Return 0%Z;
     Script.w_pip_install := Return 1%Z;
     Script.w_reexec := Return 3%Z;
     Script.w_isatty := Return true;
     Script.w_load_config := Return tt;
     Script.w_run_pipeline := Return 0%Z |}.

(** [os.path.join] on relative components without separators, as on a
    POSIX system. *)
Fixpoint posix_join (parts : list string) : string :=
  match parts with
  | [] => ""
  | [p] => p
  | p :: rest => p ++ "/" ++ posix_join rest
  end.

(** An interpreter started as [python3 scripts/setup_auth_auto.py] with
    the given options. *)
Definition interpreter_with (options : list string) : Trace.interp :=
  {| Trace.executable := "/usr/bin/python3";
     Trace.argv := "scripts/setup_auth_auto.py" :: options;
     Trace.os_name := "posix";
     Trace.root := "/repo";
     Trace.script_path := "/repo/scripts/setup_auth_auto.py";
     Trace.resolved_root := "/repo" |}.

(** The interpreter of a run with [--local-only]. *)
Definition interpreter : Trace.interp := interpreter_with ["--local-only"].


(** An environment in which [git] cannot be started. *)
Definition no_git_env : Repo.env :=
  {| Repo.run_git_remote := Raise (Exception "FileNotFoundError");
     Repo.environ_GH_REPO := Some "octo/dashboard";
     Repo.run_gh_repo_view :=
       Return {| returncode := 0; stdout := "octo/other"; stderr := "" |} |}.

End Cases.

(** * Properties *)

(** ** Python values *)

Lemma truthy_true_iff s : Py.truthy s = true ↔ s ≠ "".
Proof. destruct s; simpl; split; intros; congruence. Qed.

Lemma truthy_false_iff s : Py.truthy s = false ↔ s = "".
Proof. destruct s; simpl; split; intros; congruence. Qed.

Lemma truthy_opt_Some o : Py.truthy_opt o = true ↔ ∃ s, o = Some s ∧ s ≠ "".
Proof.
  destruct o as [s|]; simpl.
  - rewrite truthy_true_iff. split; [eauto | intros (? & [= <-] & ?); done].
  - split; [discriminate | intros (? & ? & _); discriminate].
Qed.

(** ** The callback handler *)

Section HandlerFacts.
Import Handler.

Implicit Types (h : cls) (req : request) (pairs : list (string * string)).

Lemma parse_qs_step_lookup (m : gmap string (list string)) p k :
  parse_qs_step m p !! k =
    if decide (p.1 = k) then Some (default [] (m !! k) ++ [p.2])%list
    else m !! k.
Proof.
  unfold parse_qs_step. case_decide as Hk.
  - subst k. destruct (m !! p.1) as [vs|]; by rewrite lookup_insert_eq.
  - destruct (m !! p.1) as [vs|]; by rewrite lookup_insert_ne.
Qed.

Lemma foldl_parse_qs_lookup pairs (m : gmap string (list string)) k :
  foldl parse_qs_step m pairs !! k =
    match (filter (λ p, p.1 = k) pairs).*2 with
    | [] => m !! k
    | vs => Some (default [] (m !! k) ++ vs)%list
    end.
Proof.
  revert m. induction pairs as [|p pairs IH]; intros m; [done|].
  cbn [foldl]. rewrite IH, parse_qs_step_lookup, filter_cons.
  case_decide as Hk; [|done].
  cbn [fmap list_fmap default].
  destruct ((filter (λ p0, p0.1 = k) pairs).*2) as [|v vs]; [done|].
  unfold id. by rewrite <- app_assoc.
Qed.

(** The handler reads, for each name, the first non-blank value given for
    it. *)
Lemma query_first_parse_qs pairs k :
  query_first (parse_qs pairs) k = Some (param pairs k).
Proof.
  unfold query_first, parse_qs, param.
  rewrite foldl_parse_qs_lookup, lookup_empty.
  by destruct (filter (λ p, p.1 = k) (kept pairs)) as [|[? v] ?].
Qed.

Lemma do_GET_off_path h req :
  req_path req ≠ CALLBACK_PATH →
  do_GET h req = Some (h, SendError 404 "Not Found").
Proof. intros Hp. unfold do_GET. by rewrite bool_decide_eq_false_2. Qed.

(** On the callback path [do_GET] never raises: it assigns one field of the
    shared result and answers 200 with the page built from that result. *)
Lemma do_GET_on_path h req :
  req_path req = CALLBACK_PATH →
  let r := assign h (param (req_pairs req) "state")
             (param (req_pairs req) "code") (param (req_pairs req) "error") in
  do_GET h req =
    Some ({| result := r; expected_state := expected_state h |},
          Response 200 (page_headers (page (message_of r)))
            (page (message_of r))).
Proof.
  intros Hp. unfold do_GET. rewrite bool_decide_eq_true_2 by done.
  cbn [negb]. by rewrite !query_first_parse_qs.
Qed.

Lemma do_GET_total h req : ∃ h' resp,
  do_GET h req = Some (h', resp) ∧ expected_state h' = expected_state h.
Proof.
  destruct (decide (req_path req = CALLBACK_PATH)) as [Hp|Hp].
  - eexists _, _. by rewrite (do_GET_on_path _ _ Hp).
  - eexists _, _. by rewrite (do_GET_off_path _ _ Hp).
Qed.

(** The four branches of the chain, by the parameters of the request. *)
Lemma assign_cases h state c err :
  assign h state c err =
    if decide (err ≠ "") then
      set_error (result h) ("Strava returned error: " ++ err)
    else if decide (c = "") then set_error (result h) MSG_MISSING_CODE
    else if decide (state ≠ expected_state h) then
      set_error (result h) MSG_STATE_MISMATCH
    else set_code (result h) c.
Proof.
  unfold assign.
  destruct err as [|a err]; cbn [Py.truthy];
    [rewrite decide_False by (intros Hn; by apply Hn)
    |by rewrite decide_True].
  destruct c as [|b c]; cbn [Py.truthy negb];
    [by rewrite decide_True | rewrite decide_False by done].
  destruct (decide (state = expected_state h)) as [Hs|Hs].
  - rewrite bool_decide_eq_true_2, decide_False by tauto. done.
  - rewrite bool_decide_eq_false_2, decide_True by tauto. done.
Qed.

Lemma assign_passes h pairs :
  passes_checks (expected_state h) pairs = true →
  assign h (param pairs "state") (param pairs "code") (param pairs "error")
  = set_code (result h) (param pairs "code").
Proof.
  unfold passes_checks, assign.
  intros [[He Hc]%andb_prop Hs]%andb_prop.
  apply negb_true_iff in He. by rewrite He, Hc, Hs.
Qed.

Lemma assign_fails h pairs :
  passes_checks (expected_state h) pairs = false →
  ∃ msg, msg ≠ "" ∧
    assign h (param pairs "state") (param pairs "code") (param pairs "error")
    = set_error (result h) msg.
Proof.
  unfold passes_checks, assign. intros Hf.
  destruct (Py.truthy (param pairs "error")) eqn:He.
  { eexists; split; [|done]. done. }
  destruct (Py.truthy (param pairs "code")) eqn:Hc; cbn [negb].
  2:{ eexists; split; [|done]. done. }
  destruct (bool_decide (param pairs "state" = expected_state h)) eqn:Hs.
  { discriminate Hf. }
  eexists; split; [|done]. done.
Qed.

Lemma serve_app h reqs1 reqs2 :
  serve h (reqs1 ++ reqs2) =
    '(h1, resps1) ← serve h reqs1;
    '(h2, resps2) ← serve h1 reqs2;
    Some (h2, (resps1 ++ resps2)%list).
Proof.
  revert h. induction reqs1 as [|req reqs1 IH]; intros h; cbn.
  - by destruct (serve h reqs2) as [[??]|].
  - destruct (do_GET h req) as [[h1 resp]|]; cbn; [|done].
    rewrite IH. destruct (serve h1 reqs1) as [[h2 resps]|]; cbn; [|done].
    by destruct (serve h2 reqs2) as [[??]|].
Qed.

(** A listener never stops on an exception of the handler. *)
Lemma serve_total h reqs : ∃ h' resps,
  serve h reqs = Some (h', resps) ∧ expected_state h' = expected_state h.
Proof.
  revert h. induction reqs as [|req reqs IH]; intros h; cbn; [by eauto|].
  destruct (do_GET_total h req) as (h1 & resp & -> & E1). cbn.
  destruct (IH h1) as (h2 & resps & -> & E2). cbn.
  eexists _, _. split; [done | congruence].
Qed.

(** No request clears or empties a stored error. *)
Lemma error_sticks h req h' resp :
  Py.truthy_opt (error (result h)) = true →
  do_GET h req = Some (h', resp) →
  Py.truthy_opt (error (result h')) = true.
Proof.
  intros He Hrun.
  destruct (decide (req_path req = CALLBACK_PATH)) as [Hp|Hp].
  - rewrite (do_GET_on_path _ _ Hp) in Hrun. injection Hrun as <- _.
    cbn [result].
    destruct (passes_checks (expected_state h) (req_pairs req)) eqn:Hc.
    + by rewrite (assign_passes _ _ Hc).
    + destruct (assign_fails _ _ Hc) as (msg & Hmsg & ->). cbn.
      by apply truthy_true_iff.
  - rewrite (do_GET_off_path _ _ Hp) in Hrun. by injection Hrun as <- _.
Qed.

Lemma error_sticks_serve reqs h h' resps :
  Py.truthy_opt (error (result h)) = true →
  serve h reqs = Some (h', resps) →
  Py.truthy_opt (error (result h')) = true.
Proof.
  revert h h' resps. induction reqs as [|req reqs IH]; intros h h' resps He; cbn.
  - by intros [= <- _].
  - destruct (do_GET h req) as [[h1 resp]|] eqn:E1; cbn; [|done].
    destruct (serve h1 reqs) as [[h2 resps2]|] eqn:E2; cbn; [|done].
    intros [= <- _]. eapply IH; [|done]. by eapply error_sticks.
Qed.

Lemma failed_page_differs e :
  page ("Authorization failed: " ++ e) ≠ page MSG_RECEIVED.
Proof. intros H. cbn in H. discriminate H. Qed.

End HandlerFacts.

Section CallbackClaims.
Import Handler.

Implicit Types (h : cls) (req : request).




(** C2 (as amended). The handler has no first-write-wins guard: every
    request to the callback path assigns one field of the result, whatever
    the result already holds. A stored code survives a later request that
    is off the callback path (nothing changes) or that fails one of the
    checks (only the error field is assigned), and is replaced by the code
    of any later request that passes them. *)
Theorem stored_code_until_next_accepted h req c :
  code (result h) = Some c →
  ∃ h' resp, do_GET h req = Some (h', resp) ∧
    (req_path req ≠ CALLBACK_PATH → result h' = result h) ∧
    (req_path req = CALLBACK_PATH →
     passes_checks (expected_state h) (req_pairs req) = false →
       code (result h') = Some c ∧
       ∃ msg, msg ≠ "" ∧ error (result h') = Some msg) ∧
    (req_path req = CALLBACK_PATH →
     passes_checks (expected_state h) (req_pairs req) = true →
       code (result h') = Some (param (req_pairs req) "code") ∧
       error (result h') = error (result h)).
Proof.
  intros Hc.
  destruct (decide (req_path req = CALLBACK_PATH)) as [Hp|Hp].
  - eexists _, _. split; [apply (do_GET_on_path _ _ Hp)|].
    cbn [result]. split; [done|]. split.
    + intros _ Hf. destruct (assign_fails _ _ Hf) as (msg & Hmsg & ->).
      cbn. eauto.
    + intros _ Hok. by rewrite (assign_passes _ _ Hok).
  - eexists _, _. split; [apply (do_GET_off_path _ _ Hp)|].
    split; [done|]. split; intros; done.
Qed.

Lemma stored_code_until_next_accepted_witness :
  ∃ h' resp,
    do_GET {| result := {| code := Some "abc123"; error := None |};
              expected_state := "s3cr3t" |} Sample.req_valid_again
      = Some (h', resp) ∧
    code (result h') = Some "zzz999".
Proof.
  destruct (stored_code_until_next_accepted
              {| result := {| code := Some "abc123"; error := None |};
                 expected_state := "s3cr3t" |}
              Sample.req_valid_again "abc123" eq_refl)
    as (h' & resp & Hrun & _ & _ & Hok).
  exists h', resp. split; [exact Hrun|].
  exact (proj1 (Hok eq_refl eq_refl)).
Defined.

(** C2 as stated fails: the code stored by a first accepted callback is
    overwritten by the code of a second accepted callback of the same
    attempt. *)
Lemma first_code_overwritten :
  ¬ (∀ expected first later h1 resps1 h2 resps2,
       serve {| result := CallbackResult_new; expected_state := expected |}
         first = Some (h1, resps1) →
       is_Some (code (result h1)) →
       serve h1 later = Some (h2, resps2) →
       code (result h2) = code (result h1)).
Proof.
  intros H.
  destruct (serve Sample.attempt [Sample.req_valid]) as [[h1 resps1]|] eqn:E1;
    [|vm_compute in E1; discriminate E1].
  destruct (serve h1 [Sample.req_valid_again]) as [[h2 resps2]|] eqn:E2;
    [|vm_compute in E1; injection E1 as <- _;
      vm_compute in E2; discriminate E2].
  assert (code (result h2) = code (result h1)) as Hsame.
  { refine (H "s3cr3t" [Sample.req_valid] [Sample.req_valid_again]
              h1 resps1 h2 resps2 E1 _ E2).
    vm_compute in E1. injection E1 as <- _. by eexists. }
  vm_compute in E1. injection E1 as <- _.
  vm_compute in E2. injection E2 as <- _.
  discriminate Hsame.
Qed.

(** C3 (as amended). A result resolved from the fresh cell by one request
    to the callback path has exactly one of [code] and [error] set. It is
    not immutable afterwards: a later request to the callback path assigns
    one of the two fields again. What every request preserves is weaker: at
    most one field changes, a field that is set is never cleared, and a
    request off the callback path changes nothing. *)
Theorem result_fields_only_grow h req :
  ∃ h' resp, do_GET h req = Some (h', resp) ∧
    (code (result h') = code (result h) ∨
     error (result h') = error (result h)) ∧
    (is_Some (code (result h)) → is_Some (code (result h'))) ∧
    (is_Some (error (result h)) → is_Some (error (result h'))) ∧
    (req_path req ≠ CALLBACK_PATH → result h' = result h) ∧
    (result h = CallbackResult_new → req_path req = CALLBACK_PATH →
       (is_Some (code (result h')) ∧ error (result h') = None) ∨
       (code (result h') = None ∧ is_Some (error (result h')))).
Proof.
  destruct (decide (req_path req = CALLBACK_PATH)) as [Hp|Hp].
  - eexists _, _. split; [apply (do_GET_on_path _ _ Hp)|].
    cbn [result].
    destruct (passes_checks (expected_state h) (req_pairs req)) eqn:Hc.
    + rewrite (assign_passes _ _ Hc). cbn.
      split_and!; [by right | by eauto | done | done |].
      intros -> _. left. by eauto.
    + destruct (assign_fails _ _ Hc) as (msg & _ & ->). cbn.
      split_and!; [by left | done | by eauto | done |].
      intros -> _. right. by eauto.
  - eexists _, _. split; [apply (do_GET_off_path _ _ Hp)|].
    split_and!; [by left | done | done | done | done].
Qed.

Lemma result_fields_only_grow_witness :
  ∃ h' resp, do_GET Sample.attempt Sample.req_denied = Some (h', resp) ∧
    code (result h') = None ∧ is_Some (error (result h')).
Proof.
  destruct (result_fields_only_grow Sample.attempt Sample.req_denied)
    as (h' & resp & Hrun & _ & _ & _ & _ & Hone).
  exists h', resp. split; [exact Hrun|].
  destruct (Hone eq_refl eq_refl) as [[[c Hc] _]|Herr]; [|exact Herr].
  vm_compute in Hrun. injection Hrun as <- _. discriminate Hc.
Defined.

(** C3 as stated fails: after a denied callback and then an accepted one
    of the same attempt, both [code] and [error] are set; the accepted
    callback has changed a result that was already resolved. *)
Lemma both_fields_set :
  ¬ (∀ expected reqs h resps,
       serve {| result := CallbackResult_new; expected_state := expected |}
         reqs = Some (h, resps) →
       ¬ (is_Some (code (result h)) ∧ is_Some (error (result h)))).
Proof.
  intros H.
  destruct (serve Sample.attempt [Sample.req_denied; Sample.req_valid])
    as [[h resps]|] eqn:E; [|vm_compute in E; discriminate E].
  apply (H "s3cr3t" [Sample.req_denied; Sample.req_valid] h resps E).
  vm_compute in E. injection E as <- _. split; by eexists.
Qed.

(** C7 (as amended). A GET request whose target parses and whose path is
    not the callback path is answered 404 Not Found and leaves the handler
    state, hence the result cell, unchanged. A GET request on the callback
    path is answered 200 with the content type, the content length and the
    HTML page: the fixed frame around the escaped message, which is the
    confirmation text or the failure text with the error stored after the
    request, whatever the parameter checks decide. A request whose target
    [urlparse] rejects is not answered by the handler: the exception
    escapes before anything is sent or assigned. *)
Theorem do_GET_responses h t :
  (t = Unparseable → do_GET_at h t = None) ∧
  (∀ req, t = Parsed req →
     (req_path req ≠ CALLBACK_PATH →
        do_GET_at h t = Some (h, SendError 404 "Not Found")) ∧
     (req_path req = CALLBACK_PATH →
        ∃ h' message body,
          do_GET_at h t =
            Some (h', Response 200
                        [("Content-Type", "text/html; charset=utf-8");
                         ("Content-Length",
                          Py.str_of_nat (String.length body))]
                        body) ∧
          body =
            "<!doctype html><html><head><meta charset='utf-8'>"
            ++ "<title>Strava Auth</title></head><body><p>"
            ++ Py.html_escape message ++ "</p></body></html>" ∧
          expected_state h' = expected_state h ∧
          ((Py.truthy_opt (error (result h')) = false ∧
            message =
              "Authorization received. You can close this tab and return to the terminal.")
           ∨ ∃ e, error (result h') = Some e ∧ e ≠ "" ∧
                  message = "Authorization failed: " ++ e))).
Proof.
  split; [by intros ->|]. intros req ->. cbn [do_GET_at].
  split; [apply do_GET_off_path|].
  intros Hp. eexists _, _, _. split; [apply (do_GET_on_path _ _ Hp)|].
  split; [reflexivity|]. split; [reflexivity|].
  cbn [result]. unfold message_of.
  destruct (Py.truthy_opt (error _)) eqn:He; [|by left].
  apply truthy_opt_Some in He as (e & -> & Hne). right. by exists e.
Qed.

Lemma do_GET_responses_witness :
  do_GET_at Sample.attempt (Parsed Sample.req_favicon)
    = Some (Sample.attempt, SendError 404 "Not Found") ∧
  ∃ h' message body,
    do_GET_at Sample.attempt (Parsed Sample.req_forged)
      = Some (h', Response 200
                    [("Content-Type", "text/html; charset=utf-8");
                     ("Content-Length", Py.str_of_nat (String.length body))]
                    body) ∧
    body =
      "<!doctype html><html><head><meta charset='utf-8'>"
      ++ "<title>Strava Auth</title></head><body><p>"
      ++ Py.html_escape message ++ "</p></body></html>".
Proof.
  split.
  - apply (proj2 (do_GET_responses Sample.attempt
                    (Parsed Sample.req_favicon)) _ eq_refl).
    vm_compute. discriminate.
  - destruct (proj2 (proj2 (do_GET_responses Sample.attempt
                              (Parsed Sample.req_forged)) _ eq_refl) eq_refl)
      as (h' & message & body & Hrun & Hbody & _).
    exists h', message, body. split; [exact Hrun | exact Hbody].
Defined.

(** C7 as stated fails: a GET request whose target [urlparse] rejects, such
    as [http://[/exchange_token], is answered neither 404 nor 200; the
    handler raises before it sends anything. *)
Lemma unparseable_target_not_answered :
  ¬ (∀ h t, ∃ h' resp,
       do_GET_at h t = Some (h', resp) ∧
       ((∃ message, resp = SendError 404 message) ∨
        (∃ headers body, resp = Response 200 headers body))).
Proof.
  intros H. destruct (H Sample.attempt Unparseable) as (h' & resp & Hrun & _).
  discriminate Hrun.
Qed.

(** C10. The page of a callback request is chosen by the error field of
    the shared result, not by what the request itself achieved: once some
    request of the listener has stored an error, every later request to
    the callback path is answered with the failure page and never with the
    confirmation, also when it passes the checks and its code is stored. *)
Theorem failed_page_after_stored_error h before failing between req :
  req_path failing = CALLBACK_PATH →
  passes_checks (expected_state h) (req_pairs failing) = false →
  req_path req = CALLBACK_PATH →
  ∃ h' resps e,
    serve h (before ++ failing :: between ++ [req]) =
      Some (h', (resps ++
             [Response 200
                (page_headers (page ("Authorization failed: " ++ e)))
                (page ("Authorization failed: " ++ e))])%list) ∧
    length resps = length (before ++ failing :: between) ∧
    error (result h') = Some e ∧
    page ("Authorization failed: " ++ e) ≠ page MSG_RECEIVED ∧
    (passes_checks (expected_state h) (req_pairs req) = true →
       code (result h') = Some (param (req_pairs req) "code")).
Proof.
  intros Hpf Hfail Hp.
  destruct (serve_total h before) as (h1 & resps1 & E1 & X1).
  assert (∃ h2 resp2, do_GET h1 failing = Some (h2, resp2) ∧
            expected_state h2 = expected_state h ∧
            Py.truthy_opt (error (result h2)) = true)
    as (h2 & resp2 & E2 & X2 & T2).
  { eexists _, _. split; [apply (do_GET_on_path _ _ Hpf)|].
    split; [done|]. cbn [result]. rewrite <- X1 in Hfail.
    destruct (assign_fails _ _ Hfail) as (msg & Hmsg & ->).
    by apply truthy_true_iff. }
  destruct (serve_total h2 between) as (h3 & resps3 & E3 & X3).
  pose proof (error_sticks_serve _ _ _ _ T2 E3) as T3.
  pose proof (do_GET_on_path h3 req Hp) as E4. cbv zeta in E4.
  set (r := assign h3 _ _ _) in E4.
  pose proof (error_sticks _ _ _ _ T3 E4) as T4. cbn [result] in T4.
  destruct (proj1 (truthy_opt_Some _) T4) as (e & He & Hne).
  assert (message_of r = "Authorization failed: " ++ e) as Hm.
  { unfold message_of. by rewrite T4, He. }
  rewrite Hm in E4.
  exists {| result := r; expected_state := expected_state h3 |},
    (resps1 ++ resp2 :: resps3)%list, e.
  split.
  { replace (before ++ failing :: between ++ [req])%list
      with ((before ++ failing :: between) ++ [req])%list
      by (by rewrite <- app_assoc).
    rewrite serve_app, serve_app, E1. cbn. rewrite E2. cbn.
    rewrite E3. cbn. rewrite E4. done. }
  split.
  { rewrite !length_app. cbn.
    assert (∀ reqs g g' rs, serve g reqs = Some (g', rs) →
              length rs = length reqs) as Hlen.
    { induction reqs as [|q reqs IH]; intros g g' rs; cbn.
      - by intros [= _ <-].
      - destruct (do_GET g q) as [[g1 p1]|]; cbn; [|done].
        destruct (serve g1 reqs) as [[g2 p2]|] eqn:E; cbn; [|done].
        intros [= _ <-]. cbn. f_equal. by eapply IH. }
    by rewrite (Hlen _ _ _ _ E1), (Hlen _ _ _ _ E3). }
  split; [done|]. split; [apply failed_page_differs|].
  intros Hok. subst r. rewrite X3, X2 in *.
  replace (expected_state h) with (expected_state h3) in Hok by congruence.
  by rewrite (assign_passes _ _ Hok).
Qed.

Lemma failed_page_after_stored_error_witness :
  ∃ h' resps e,
    serve Sample.attempt
      ([Sample.req_favicon] ++ Sample.req_forged :: [] ++ [Sample.req_valid])
    = Some (h', (resps ++
             [Response 200
                (page_headers (page ("Authorization failed: " ++ e)))
                (page ("Authorization failed: " ++ e))])%list) ∧
    error (result h') = Some e ∧
    code (result h') = Some "abc123".
Proof.
  destruct (failed_page_after_stored_error Sample.attempt
              [Sample.req_favicon] Sample.req_forged [] Sample.req_valid
              eq_refl eq_refl eq_refl)
    as (h' & resps & e & Hrun & _ & He & _ & Hcode).
  exists h', resps, e. split; [exact Hrun|]. split; [exact He|].
  exact (Hcode eq_refl).
Defined.

End CallbackClaims.

(** ** Repository slug resolution *)

Section RepoClaims.
Import Repo.

Variable normalize : option string → option string.
Variable strip : string → string.

Lemma first_normalized_Some candidates slug :
  first_normalized normalize candidates = Some slug ↔
  ∃ i candidate,
    candidates !! i = Some candidate ∧
    normalize candidate = Some slug ∧ slug ≠ "" ∧
    ∀ j earlier, j < i → candidates !! j = Some earlier →
      Py.truthy_opt (normalize earlier) = false.
Proof.
  induction candidates as [|c candidates IH]; cbn [first_normalized].
  { split; [done | by intros (i & ? & ? & _)]. }
  unfold _normalize_repo_slug.
  destruct (Py.truthy_opt (normalize c)) eqn:Hc.
  - split.
    + intros Hn. exists 0, c. split_and!; [done | done | | intros; lia].
      rewrite Hn in Hc. by apply truthy_true_iff in Hc.
    + intros ([|i] & cand & Hi & Hn & Hne & Hearlier).
      * by injection Hi as ->.
      * specialize (Hearlier 0 c ltac:(lia) eq_refl). congruence.
  - rewrite IH. split.
    + intros (i & cand & Hi & Hn & Hne & Hearlier).
      exists (S i), cand. split_and!; [done | done | done |].
      intros [|j] earlier Hj Hl.
      * by injection Hl as <-.
      * apply (Hearlier j); [lia | done].
    + intros ([|i] & cand & Hi & Hn & Hne & Hearlier).
      * injection Hi as ->. rewrite Hn in Hc. cbn in Hc.
        apply truthy_false_iff in Hc. done.
      * exists i, cand. split_and!; [done | done | done |].
        intros j earlier Hj Hl. apply (Hearlier (S j)); [lia | done].
Qed.

Lemma first_normalized_None candidates :
  first_normalized normalize candidates = None ↔
  ∀ candidate, candidate ∈ candidates →
    Py.truthy_opt (normalize candidate) = false.
Proof.
  induction candidates as [|c candidates IH]; cbn [first_normalized].
  { split; [intros _ ? Hin; by apply elem_of_nil in Hin | done]. }
  unfold _normalize_repo_slug.
  destruct (Py.truthy_opt (normalize c)) eqn:Hc.
  - split.
    + intros Hn. by rewrite Hn in Hc.
    + intros Hall. specialize (Hall c ltac:(left)). congruence.
  - rewrite IH. split.
    + intros Hall cand [->|Hin]%elem_of_cons; [done | by apply Hall].
    + intros Hall cand Hin. apply Hall. by right.
Qed.

(** The candidates are computed before the loop: when one of the two
    commands cannot be run, the resolution raises, whatever the explicit
    argument is. *)
Lemma resolve_repo_slug_raises explicit e x :
  run_git_remote e = Raise x ∨
  ((∃ cp, run_git_remote e = Return cp) ∧ run_gh_repo_view e = Raise x) →
  _resolve_repo_slug normalize strip explicit e = Raise x.
Proof.
  unfold _resolve_repo_slug, candidates_of, _repo_slug_from_git,
    _repo_slug_from_gh_context.
  intros [Hg|[Hg Hh]].
  - by rewrite Hg.
  - destruct Hg as [cp ->]. rewrite Hh. cbn. by destruct (negb _).
Qed.

(** C9 (as amended). The four candidates are evaluated in a fixed order
    before any is tried: the explicit argument, the slug
    [_repo_slug_from_git] returns (the normalized [remote.origin.url] of the
    working tree, or [None] when [git] exits non-zero), the [GH_REPO]
    environment variable, the slug [_repo_slug_from_gh_context] returns (as
    for [git]). When [git], or else [gh], cannot be run, its exception
    escapes, whatever the other candidates are. Otherwise every candidate
    is normalized, the two slugs for the second time, and the result is the
    normalization of the first candidate for which it is a non-empty slug,
    and [None] when there is no such candidate. *)
Theorem resolve_repo_slug_cases explicit e :
  (∀ x, run_git_remote e = Raise x →
     _resolve_repo_slug normalize strip explicit e = Raise x) ∧
  (∀ git x, run_git_remote e = Return git → run_gh_repo_view e = Raise x →
     _resolve_repo_slug normalize strip explicit e = Raise x) ∧
  (∀ git gh, run_git_remote e = Return git → run_gh_repo_view e = Return gh →
     let from_git :=
       if (returncode git =? 0)%Z then normalize (Some (strip (stdout git)))
       else None in
     let from_gh :=
       if (returncode gh =? 0)%Z then normalize (Some (strip (stdout gh)))
       else None in
     let candidates := [explicit; from_git; environ_GH_REPO e; from_gh] in
     ∃ resolved,
       _resolve_repo_slug normalize strip explicit e = Return resolved ∧
       (∀ slug, resolved = Some slug ↔
          ∃ i candidate,
            candidates !! i = Some candidate ∧
            normalize candidate = Some slug ∧ slug ≠ "" ∧
            ∀ j earlier, j < i → candidates !! j = Some earlier →
              Py.truthy_opt (normalize earlier) = false) ∧
       (resolved = None ↔
          ∀ candidate, candidate ∈ candidates →
            Py.truthy_opt (normalize candidate) = false)).
Proof.
  split_and!.
  - intros x Hgit.
    unfold _resolve_repo_slug, candidates_of, _repo_slug_from_git.
    by rewrite Hgit.
  - intros git x Hgit Hgh.
    unfold _resolve_repo_slug, candidates_of, _repo_slug_from_git,
      _repo_slug_from_gh_context.
    rewrite Hgit, Hgh. cbn. by destruct (negb _).
  - intros git gh Hgit Hgh from_git from_gh candidates.
    exists (first_normalized normalize candidates). split.
    + unfold _resolve_repo_slug, candidates_of, _repo_slug_from_git,
        _repo_slug_from_gh_context, _normalize_repo_slug.
      rewrite Hgit, Hgh. subst candidates from_git from_gh. cbn.
      by destruct (returncode git =? 0)%Z, (returncode gh =? 0)%Z.
    + split; [intros slug; apply first_normalized_Some
             |apply first_normalized_None].
Qed.

End RepoClaims.

Lemma resolve_repo_slug_cases_witness :
  ∃ resolved,
    Repo._resolve_repo_slug Sample.keep_slashed id (Some "not-a-slug")
      Sample.repo_env = Return resolved ∧
    resolved = Some "octo/dashboard".
Proof.
  destruct (proj2 (proj2 (resolve_repo_slug_cases Sample.keep_slashed id
                            (Some "not-a-slug") Sample.repo_env))
              _ _ eq_refl eq_refl)
    as (resolved & Hrun & Hsome & _).
  exists resolved. split; [exact Hrun|].
  apply Hsome. exists 2, (Some "octo/dashboard").
  split; [reflexivity|]. split; [reflexivity|]. split; [discriminate|].
  intros [|[|j]] earlier Hj Hl; [| |lia];
    injection Hl as <-; reflexivity.
Defined.

(** C9 as stated fails: the function does not always return the first
    usable candidate or [None]. Where [git] cannot be started, the
    candidates cannot even be listed and the exception escapes, although
    the explicit argument is a slug. *)
Lemma resolution_raises_without_git :
  ¬ (∀ normalize strip explicit e,
       ∃ resolved,
         Repo._resolve_repo_slug normalize strip explicit e
         = Return resolved).
Proof.
  intros H.
  destruct (H Sample.keep_slashed id (Some "octo/dashboard") Cases.no_git_env)
    as (resolved & Hrun).
  vm_compute in Hrun. discriminate Hrun.
Qed.

(** ** [main] and the exit code *)

Section ScriptClaims.
Import Script.

Implicit Types (w : world) (args : Namespace).

(** [main] returns an integer only from the pipeline step. *)
Lemma main_returns_inv w v :
  main w = Return v →
  v = None ∨
  ∃ rc, w_run_pipeline w = Return rc ∧ v = Some rc.
Proof.
  unfold main.
  destruct (w_parse_args w) as [args|]; cbn; [|done].
  destruct (_bootstrap_env_and_reexec args w) as [[]|]; cbn; [|done].
  destruct (w_isatty w) as [interactive|]; cbn; [|done].
  destruct (local_only args); [|intros [= <-]; by left].
  destruct (w_load_config w) as [[]|]; cbn; [|done].
  destruct (w_run_pipeline w) as [rc|]; cbn; [|done].
  destruct (rc =? 0)%Z eqn:Hrc; cbn; intros [= <-]; right; exists rc.
  - apply Z.eqb_eq in Hrc. by subst rc.
  - done.
Qed.

(** C5 (as amended). The exit code is 0 when [main] returns [None] or 0,
    1 when an exception other than an interruption escapes [main], and 130
    on [KeyboardInterrupt]. Two more sources of exit codes exist: the
    return code of a failing pipeline, which [main] returns unchanged, and
    the code of a [SystemExit] raised inside [main], which passes through.
    The process exits non-zero only in one of these four cases. *)
Theorem exit_code_cases w :
  (main w = Raise KeyboardInterrupt → run_script w = 130%Z) ∧
  (∀ cls, main w = Raise (Exception cls) → run_script w = 1%Z) ∧
  (main w = Return None → run_script w = 0%Z) ∧
  (∀ rc, main w = Return (Some rc) →
     w_run_pipeline w = Return rc ∧ run_script w = rc) ∧
  (∀ c, main w = Raise (SystemExit c) → run_script w = default 0%Z c) ∧
  (run_script w ≠ 0%Z →
     main w = Raise KeyboardInterrupt ∨
     (∃ cls, main w = Raise (Exception cls)) ∨
     (∃ rc, rc ≠ 0%Z ∧ w_run_pipeline w = Return rc ∧
            main w = Return (Some rc)) ∨
     (∃ c, c ≠ 0%Z ∧ main w = Raise (SystemExit (Some c)))).
Proof.
  unfold run_script. split_and!.
  - by intros ->.
  - by intros cls ->.
  - by intros ->.
  - intros rc Hm.
    destruct (main_returns_inv _ _ Hm) as [[=]|(rc' & Hp & [= <-])].
    by rewrite Hm.
  - by intros c ->.
  - destruct (main w) as [[rc|]|[|[c|]|cls]] eqn:Hm; cbn; intros Hne;
      [|done|by left|..|done|by eauto].
    + right; right; left. exists rc.
      destruct (main_returns_inv _ _ Hm) as [[=]|(rc' & Hp & [= <-])]. done.
    + right; right; right. by exists c.
Qed.

Lemma exit_code_cases_witness :
  main Sample.interrupted_run = Raise KeyboardInterrupt ∧
  run_script Sample.interrupted_run = 130%Z.
Proof.
  split; [reflexivity|].
  refine (proj1 (exit_code_cases Sample.interrupted_run) _). reflexivity.
Defined.

(** C5 as stated fails: a run that is neither interrupted nor successful
    can exit with a code other than 1. When the pipeline returns 2, so does
    the process. *)
Lemma exit_code_of_failed_pipeline :
  ¬ (∀ w, main w ≠ Raise KeyboardInterrupt →
          run_script w = 0%Z ∨ run_script w = 1%Z).
Proof.
  intros H.
  destruct (H (Sample.local_run 2) ltac:(vm_compute; discriminate))
    as [H0|H1]; vm_compute in *; discriminate.
Qed.

End ScriptClaims.

(** ** Required-secret groups *)

Section SyncClaims.
Import Sync.

#[local] Set Warnings "-clear-no-such-hyp".

Implicit Types (present : gset string) (g : SecretGroup).


Lemma strava_satisfied_iff present :
  satisfied strava_group present = true ↔
  "STRAVA_CLIENT_ID" ∈ present ∧ "STRAVA_CLIENT_SECRET" ∈ present ∧
  "STRAVA_REFRESH_TOKEN" ∈ present.
Proof.
  unfold satisfied, strava_group, STRAVA_REQUIRED_SECRET_NAMES.
  cbn [alternatives existsb].
  rewrite orb_false_r, bool_decide_eq_true. set_solver.
Qed.





End SyncClaims.

(** * Further properties *)

#[local] Set Warnings "-clear-no-such-hyp".

(** ** The callback handler, beyond single requests *)

Section HandlerMore.
Import Handler Replay.

Implicit Types (h : cls) (req : request) (pairs : list (string * string)).

(** The handler fails to answer only when [urlparse] rejects the target:
    indexing the value lists of the query never raises. Over any sequence
    of requests there is one entry per request, the entry is missing
    exactly for the unparseable targets, and [expected_state] is never
    assigned. *)
Theorem handler_raises_only_on_unparseable targets h :
  length (serve_at h targets).2 = length targets ∧
  expected_state (serve_at h targets).1 = expected_state h ∧
  ∀ i t, targets !! i = Some t →
    ((serve_at h targets).2 !! i = Some None ↔ t = Unparseable).
Proof.
  revert h. induction targets as [|t targets IH]; intros h.
  { split_and!; [done | done | by intros i t Hi]. }
  cbn [serve_at].
  destruct t as [|req]; cbn [do_GET_at].
  - destruct (IH h) as (Hlen & Hexp & Hnone).
    destruct (serve_at h targets) as [h2 resps]. cbn in *.
    split_and!; [by f_equal | done |].
    intros [|i] t Hi; cbn in *; [by injection Hi as <- | by apply Hnone].
  - destruct (do_GET_total h req) as (h1 & resp & -> & Hexp1).
    destruct (IH h1) as (Hlen & Hexp & Hnone).
    destruct (serve_at h1 targets) as [h2 resps]. cbn in *.
    split_and!; [by f_equal | congruence |].
    intros [|i] t Hi; cbn in *; [|by apply Hnone].
    injection Hi as <-. split; intros; discriminate.
Qed.

Lemma list_ascii_of_string_app a b :
  list_ascii_of_string (a ++ b)
  = (list_ascii_of_string a ++ list_ascii_of_string b)%list.
Proof.
  induction a as [|c a IH]; [done|].
  change (c :: list_ascii_of_string (a ++ b)
          = c :: (list_ascii_of_string a ++ list_ascii_of_string b)%list).
  by f_equal.
Qed.

Lemma escape_char_no_markup c :
  Forall (λ d, markup d = false) (list_ascii_of_string (Py.escape_char c)).
Proof.
  unfold Py.escape_char. repeat case_decide;
    try (cbn; repeat constructor; done).
  cbn. constructor; [|constructor].
  unfold markup. rewrite !bool_decide_eq_false_2; done.
Qed.

Lemma html_escape_no_markup s :
  Forall (λ c, markup c = false) (list_ascii_of_string (Py.html_escape s)).
Proof.
  induction s as [|c s IH]; cbn [Py.html_escape]; [constructor|].
  rewrite list_ascii_of_string_app. apply Forall_app. split; [|done].
  apply escape_char_no_markup.
Qed.

(** The page is a fixed frame around the escaped message, and the escaped
    message contains none of the characters [<], [>], double quote and
    single quote: an error text sent by the remote party cannot add markup
    to the page. *)
Theorem page_message_adds_no_markup message :
  ∃ text,
    page message =
      "<!doctype html><html><head><meta charset='utf-8'>"
      ++ "<title>Strava Auth</title></head><body><p>"
      ++ text ++ "</p></body></html>" ∧
    Forall (λ c, markup c = false) (list_ascii_of_string text).
Proof.
  exists (Py.html_escape message). split; [reflexivity|].
  apply html_escape_no_markup.
Qed.

Lemma escape_char_cancel c d s t :
  Py.escape_char c ++ s = Py.escape_char d ++ t → c = d ∧ s = t.
Proof.
  unfold Py.escape_char.
  repeat case_decide; subst; cbn; intros Heq;
    try (injection Heq; intros; subst; done);
    try discriminate Heq.
Qed.

Lemma html_escape_injective s t :
  Py.html_escape s = Py.html_escape t → s = t.
Proof.
  revert t. induction s as [|c s IH]; intros [|d t]; cbn [Py.html_escape].
  - done.
  - intros Heq. exfalso. revert Heq. unfold Py.escape_char.
    repeat case_decide; discriminate.
  - intros Heq. exfalso. revert Heq. unfold Py.escape_char.
    repeat case_decide; discriminate.
  - intros [-> Hrest]%escape_char_cancel. f_equal. by apply IH.
Qed.

Lemma list_ascii_of_string_inj a b :
  list_ascii_of_string a = list_ascii_of_string b → a = b.
Proof.
  intros Heq. rewrite <- (string_of_list_ascii_of_string a),
    <- (string_of_list_ascii_of_string b). by rewrite Heq.
Qed.

(** Escaping loses nothing: two messages that give the same page are the
    same message, so the page shows which error was stored. *)
Theorem page_injective m1 m2 : page m1 = page m2 → m1 = m2.
Proof.
  unfold page. intros Heq. cbn in Heq.
  repeat (injection Heq as Heq).
  apply html_escape_injective, list_ascii_of_string_inj.
  apply (f_equal list_ascii_of_string) in Heq.
  rewrite !list_ascii_of_string_app in Heq.
  cbn [list_ascii_of_string app] in Heq.
  by apply app_inv_tail in Heq.
Qed.

Lemma page_injective_witness : MSG_MISSING_CODE = MSG_MISSING_CODE.
Proof. apply (page_injective MSG_MISSING_CODE MSG_MISSING_CODE). reflexivity. Defined.

Lemma param_app_present pairs extra k :
  k ∈ (kept pairs).*1 → param (pairs ++ extra) k = param pairs k.
Proof.
  intros Hin. unfold param, kept. rewrite !filter_app.
  fold (kept pairs). fold (kept extra).
  destruct (filter (λ p, p.1 = k) (kept pairs)) as [|p l] eqn:E; [|done].
  exfalso. apply list_elem_of_fmap in Hin as (p & -> & Hin).
  assert (p ∈ filter (λ q, q.1 = p.1) (kept pairs)) as Hf
    by (by apply list_elem_of_filter).
  rewrite E in Hf. by apply elem_of_nil in Hf.
Qed.

Lemma param_app_absent pairs extra k :
  k ∉ (kept extra).*1 → param (pairs ++ extra) k = param pairs k.
Proof.
  intros Hnot. unfold param, kept. rewrite !filter_app.
  fold (kept pairs). fold (kept extra).
  destruct (filter (λ p, p.1 = k) (kept extra)) as [|p l] eqn:E;
    [by rewrite app_nil_r|].
  exfalso. assert (p ∈ filter (λ q, q.1 = k) (kept extra)) as Hf
    by (rewrite E; left).
  apply list_elem_of_filter in Hf as [Hk Hin].
  apply Hnot, list_elem_of_fmap. by exists p.
Qed.

(** Only the first non-blank occurrence of [state], [code] and [error]
    counts, and no other parameter does: appending pairs changes neither the
    stored result nor the response when, for each of the three names, the
    request already carries a non-blank value or the appended pairs carry
    none. *)
Theorem later_parameters_ignored h path pairs extra :
  (∀ k, k ∈ ["state"; "code"; "error"] →
        k ∈ (kept pairs).*1 ∨ k ∉ (kept extra).*1) →
  do_GET h {| req_path := path; req_pairs := pairs ++ extra |}
  = do_GET h {| req_path := path; req_pairs := pairs |}.
Proof.
  intros Hk.
  assert (∀ k, k ∈ ["state"; "code"; "error"] →
            param (pairs ++ extra) k = param pairs k) as Hparam.
  { intros k Hin. destruct (Hk k Hin);
      [by apply param_app_present | by apply param_app_absent]. }
  destruct (decide (path = CALLBACK_PATH)) as [Hp|Hp].
  - rewrite !do_GET_on_path by done. cbn [req_pairs].
    rewrite !Hparam by set_solver. done.
  - by rewrite !do_GET_off_path.
Qed.

Lemma later_parameters_ignored_witness :
  do_GET Sample.attempt
    {| req_path := CALLBACK_PATH;
       req_pairs := [("state", "s3cr3t"); ("code", "abc123")]
                    ++ [("code", "zzz999"); ("state", "forged"); ("x", "y");
                        ("error", "")] |}
  = do_GET Sample.attempt
      {| req_path := CALLBACK_PATH;
         req_pairs := [("state", "s3cr3t"); ("code", "abc123")] |}.
Proof.
  apply (later_parameters_ignored Sample.attempt CALLBACK_PATH
           [("state", "s3cr3t"); ("code", "abc123")]
           [("code", "zzz999"); ("state", "forged"); ("x", "y");
            ("error", "")]).
  intros k Hk.
  apply elem_of_cons in Hk as [->|Hk]; [left; vm_compute; left|].
  apply elem_of_cons in Hk as [->|Hk];
    [left; vm_compute; right; left|].
  apply elem_of_cons in Hk as [->|Hk]; [|by apply elem_of_nil in Hk].
  right. vm_compute. intros Hin.
  repeat (apply elem_of_cons in Hin as [Hin|Hin]; [discriminate Hin|]).
  by apply elem_of_nil in Hin.
Defined.

Lemma param_absent pairs k : k ∉ (kept pairs).*1 → param pairs k = "".
Proof.
  intros Hnot. rewrite <- (app_nil_l pairs).
  rewrite param_app_absent by done. done.
Qed.

(** A callback that carries no non-blank [state] is read as returning the
    empty state. A handler whose [expected_state] is the empty string, the
    value the class is defined with, stores the code of such a callback
    when it carries one and no error; a handler with any other
    [expected_state] rejects it, storing an error and leaving the code as
    it was. *)
Theorem stateless_callback h req :
  req_path req = CALLBACK_PATH →
  "state" ∉ (kept (req_pairs req)).*1 →
  ∃ h' resp, do_GET h req = Some (h', resp) ∧
    (expected_state h = "" →
     param (req_pairs req) "code" ≠ "" → param (req_pairs req) "error" = "" →
       result h' = {| code := Some (param (req_pairs req) "code");
                      error := error (result h) |}) ∧
    (expected_state h ≠ "" →
       code (result h') = code (result h) ∧
       ∃ msg, msg ≠ "" ∧ error (result h') = Some msg).
Proof.
  intros Hp Hno. eexists _, _. split; [apply (do_GET_on_path _ _ Hp)|].
  cbn [result]. rewrite (param_absent _ _ Hno), assign_cases. split.
  - intros Hexp Hc He.
    rewrite decide_False by (intros Hn; by apply Hn).
    rewrite decide_False by done.
    rewrite decide_False by (intros Hn; by apply Hn). done.
  - intros Hexp.
    destruct (decide (param (req_pairs req) "error" ≠ ""));
      [cbn; split; [done|]; eexists; split; [|done]; done|].
    destruct (decide (param (req_pairs req) "code" = ""));
      [cbn; split; [done|]; eexists; split; [|done]; done|].
    rewrite decide_True by (intros Heq; by apply Hexp).
    cbn. split; [done|]. eexists; split; [|done]. done.
Qed.

Lemma stateless_callback_witness :
  ∃ h' resp,
    do_GET initial
      {| req_path := CALLBACK_PATH;
         req_pairs := [("state", ""); ("code", "abc123")] |}
    = Some (h', resp) ∧
    result h' = {| code := Some "abc123"; error := None |}.
Proof.
  destruct (stateless_callback initial
              {| req_path := CALLBACK_PATH;
                 req_pairs := [("state", ""); ("code", "abc123")] |}
              eq_refl)
    as (h' & resp & Hrun & Hempty & _).
  { vm_compute. intros Hin. by apply elem_of_cons in Hin as [Hin|Hin];
      [discriminate Hin | apply elem_of_nil in Hin]. }
  exists h', resp. split; [exact Hrun|].
  refine (Hempty eq_refl _ eq_refl). vm_compute. discriminate.
Defined.

Lemma rejection_None expected pairs :
  rejection expected pairs = None ↔ passes_checks expected pairs = true.
Proof.
  unfold rejection, passes_checks.
  destruct (Py.truthy (param pairs "error")); [done|].
  destruct (Py.truthy (param pairs "code")); [|done].
  by destruct (bool_decide (param pairs "state" = expected)).
Qed.

Lemma assign_rejection h pairs msg :
  rejection (expected_state h) pairs = Some msg →
  assign h (param pairs "state") (param pairs "code") (param pairs "error")
  = set_error (result h) msg.
Proof.
  unfold rejection, assign.
  destruct (Py.truthy (param pairs "error")); [by intros [= <-]|].
  destruct (Py.truthy (param pairs "code")); cbn [negb];
    [|by intros [= <-]].
  destruct (bool_decide (param pairs "state" = expected_state h));
    cbn [negb]; [done | by intros [= <-]].
Qed.

(** How the requests of a listener compose: after any sequence, the result
    holds the code of the last request that passed the checks and the
    message of the last request that failed one, and keeps the field it
    started with when no request of that kind arrived. *)
Theorem result_after_sequence reqs h :
  ∃ h' resps,
    serve h reqs = Some (h', resps) ∧
    code (result h') =
      from_option Some (code (result h))
        (last (accepted_codes (expected_state h) reqs)) ∧
    error (result h') =
      from_option Some (error (result h))
        (last (rejections (expected_state h) reqs)).
Proof.
  revert h. induction reqs as [|req reqs IH]; intros h.
  { exists h, []. done. }
  cbn [serve accepted_codes rejections].
  destruct (decide (req_path req = CALLBACK_PATH)) as [Hp|Hp].
  - rewrite (do_GET_on_path _ _ Hp). cbn [mbind option_bind].
    set (h1 := {| result := _; expected_state := _ |}).
    destruct (IH h1) as (h' & resps & -> & Hc & He).
    cbn. eexists _, _. split; [done|].
    rewrite Hc, He. subst h1. cbn [expected_state result].
    rewrite bool_decide_eq_true_2 by done. cbn [andb].
    destruct (rejection (expected_state h) (req_pairs req)) as [msg|] eqn:Hr.
    + assert (passes_checks (expected_state h) (req_pairs req) = false) as ->.
      { destruct (passes_checks _ _) eqn:Hpc; [|done].
        apply rejection_None in Hpc. congruence. }
      rewrite (assign_rejection _ _ _ Hr). cbn.
      split; [done|].
      rewrite last_cons.
      by destruct (last (rejections (expected_state h) reqs)).
    + apply rejection_None in Hr as Hpc. rewrite Hpc.
      rewrite (assign_passes _ _ Hpc). cbn.
      split; [|done].
      rewrite last_cons.
      by destruct (last (accepted_codes (expected_state h) reqs)).
  - rewrite (do_GET_off_path _ _ Hp). cbn [mbind option_bind].
    destruct (IH h) as (h' & resps & -> & Hc & He).
    cbn. eexists _, _. split; [done|].
    by rewrite bool_decide_eq_false_2.
Qed.

(** Which page a callback gets: the confirmation exactly when the request
    passes the checks and no error is stored from earlier requests; in
    every other case the failure page. *)
Theorem confirmation_page_iff h req :
  req_path req = CALLBACK_PATH →
  ∃ h' headers body,
    do_GET h req = Some (h', Response 200 headers body) ∧
    (body = page MSG_RECEIVED ↔
       passes_checks (expected_state h) (req_pairs req) = true ∧
       Py.truthy_opt (error (result h)) = false) ∧
    (body ≠ page MSG_RECEIVED →
       ∃ e, error (result h') = Some e ∧
            body = page ("Authorization failed: " ++ e)).
Proof.
  intros Hp. eexists _, _, _. split; [apply (do_GET_on_path _ _ Hp)|].
  cbn [result]. unfold message_of.
  destruct (passes_checks (expected_state h) (req_pairs req)) eqn:Hc.
  - rewrite (assign_passes _ _ Hc). cbn [error set_code].
    destruct (Py.truthy_opt (error (result h))) eqn:He.
    + apply truthy_opt_Some in He as (e & -> & Hne). cbn [default].
      split; [|by eauto].
      split; [intros Hb; by apply failed_page_differs in Hb | by intros [_ ?]].
    + split; [done|]. by intros [].
  - destruct (assign_fails _ _ Hc) as (msg & Hne & ->). cbn [error set_error].
    apply truthy_true_iff in Hne as Ht. cbn [Py.truthy_opt]. rewrite Ht.
    cbn [default]. split; [|by eauto].
    split; [intros Hb; by apply failed_page_differs in Hb | by intros [? _]].
Qed.

Lemma confirmation_page_iff_witness :
  ∃ h' headers body,
    do_GET Sample.attempt Sample.req_valid
      = Some (h', Response 200 headers body) ∧
    body = page MSG_RECEIVED.
Proof.
  destruct (confirmation_page_iff Sample.attempt Sample.req_valid eq_refl)
    as (h' & headers & body & Hrun & Hiff & _).
  exists h', headers, body. split; [exact Hrun|].
  apply Hiff. split; reflexivity.
Defined.

End HandlerMore.

(** ** The first line of an error output *)

Section TextFacts.
Import Text.

Implicit Types (s t : list N) (c : N).

Lemma islinebreak_isspace c : islinebreak c = true → isspace c = true.
Proof.
  unfold islinebreak, isspace.
  rewrite !orb_true_iff, !andb_true_iff, !N.leb_le, !N.eqb_eq. lia.
Qed.

Lemma lstrip_split s :
  ∃ spaces, s = (spaces ++ lstrip s)%list ∧
            Forall (λ c, isspace c = true) spaces.
Proof.
  induction s as [|c s (spaces & Hs & Hall)]; cbn [lstrip].
  - by exists [].
  - destruct (isspace c) eqn:Hc.
    + exists (c :: spaces). split; [cbn; by f_equal | by constructor].
    + by exists [].
Qed.

Lemma lstrip_head s c t : lstrip s = c :: t → isspace c = false.
Proof.
  induction s as [|d s IH]; cbn [lstrip]; [done|].
  destruct (isspace d) eqn:Hd; [done | by intros [= <- _]].
Qed.

Lemma rstrip_split s :
  ∃ spaces, s = (rstrip s ++ spaces)%list ∧
            Forall (λ c, isspace c = true) spaces.
Proof.
  destruct (lstrip_split (rev s)) as (spaces & Hs & Hall).
  exists (rev spaces). split.
  - unfold rstrip. rewrite <- rev_app_distr, <- Hs. by rewrite rev_involutive.
  - apply Forall_forall. intros c Hin. rewrite Forall_forall in Hall.
    apply Hall. apply list_elem_of_In. apply list_elem_of_In, in_rev in Hin.
    done.
Qed.

Lemma strip_head s c t : strip s = c :: t → isspace c = false.
Proof.
  unfold strip. intros Hs.
  destruct (rstrip_split (lstrip s)) as (spaces & Hsplit & _).
  rewrite Hs in Hsplit. by apply (lstrip_head s c (t ++ spaces)%list).
Qed.

(** The first line [splitlines] produces from inside a line: what was read
    so far followed by the longest prefix free of line boundaries. *)
Lemma lines_from_first cur s :
  ∃ line rest more,
    lines_from cur s = (rev cur ++ line)%list :: more ∧
    s = (line ++ rest)%list ∧
    Forall (λ c, islinebreak c = false) line ∧
    (rest = [] ∨ ∃ c t, rest = c :: t ∧ islinebreak c = true).
Proof.
  revert cur. induction s as [|c s IH]; intros cur; cbn [lines_from].
  - exists [], [], []. rewrite app_nil_r. by split_and!; [..|left].
  - destruct (islinebreak c) eqn:Hc.
    + eexists [], (c :: s), _. rewrite app_nil_r.
      split_and!; [done | done | done | right; by eauto].
    + destruct (IH (c :: cur)) as (line & rest & more & -> & -> & Hall & Hrest).
      exists (c :: line), rest, more. cbn [rev].
      rewrite <- app_assoc. split_and!; [done | done | by constructor | done].
Qed.

Lemma literal_unknown_error :
  literal "Unknown error." ≠ [] ∧
  Forall (λ c, islinebreak c = false) (literal "Unknown error.").
Proof. split; [done|]. vm_compute. repeat constructor. Qed.

(** [_first_stderr_line] never fails on indexing the list of lines, and what
    it returns is usable as a one-line detail of an error message: it is
    not empty and contains no line boundary, whatever the output was. *)
Theorem first_stderr_line_single_line stderr :
  ∃ line,
    _first_stderr_line stderr = Some line ∧
    line ≠ [] ∧
    Forall (λ c, islinebreak c = false) line.
Proof.
  unfold _first_stderr_line.
  destruct (strip (default [] stderr)) as [|c t] eqn:Hs.
  { eexists. split; [done|]. apply literal_unknown_error. }
  cbn [splitlines].
  destruct (lines_from_first [] (c :: t))
    as (line & rest & more & -> & Hsplit & Hall & Hrest).
  exists line. cbn. split_and!; [done | | done].
  intros ->. cbn in Hsplit. subst rest.
  destruct Hrest as [|(c' & t' & [= <- <-] & Hlb)]; [done|].
  apply islinebreak_isspace in Hlb. apply strip_head in Hs. congruence.
Qed.

(** What the line is: the fixed text [Unknown error.] when the output is
    absent or consists of white space only; otherwise the stripped output up
    to its first line boundary, which starts with a code point that is not
    white space. *)
Theorem first_stderr_line_value stderr :
  let text := strip (default [] stderr) in
  (text = [] → _first_stderr_line stderr = Some (literal "Unknown error.")) ∧
  (text ≠ [] →
     ∃ line rest,
       _first_stderr_line stderr = Some line ∧
       text = (line ++ rest)%list ∧
       Forall (λ c, islinebreak c = false) line ∧
       (rest = [] ∨ ∃ c t, rest = c :: t ∧ islinebreak c = true) ∧
       ∃ c t, line = c :: t ∧ isspace c = false).
Proof.
  intros text. subst text. unfold _first_stderr_line.
  destruct (strip (default [] stderr)) as [|c t] eqn:Hs; split; try done.
  intros _. cbn [splitlines].
  destruct (lines_from_first [] (c :: t))
    as (line & rest & more & -> & Hsplit & Hall & Hrest).
  exists line, rest. cbn. split_and!; [done | done | done | done |].
  apply strip_head in Hs as Hc.
  destruct line as [|c' line].
  - cbn in Hsplit. subst rest.
    destruct Hrest as [|(c' & t' & [= <- <-] & Hlb)]; [done|].
    apply islinebreak_isspace in Hlb. congruence.
  - injection Hsplit as <- _. by eauto.
Qed.

Lemma first_stderr_line_value_witness :
  ∃ line rest,
    _first_stderr_line (Some (literal "  No module named ensurepip  "))
      = Some line ∧
    strip (literal "  No module named ensurepip  ") = (line ++ rest)%list.
Proof.
  destruct (first_stderr_line_value
              (Some (literal "  No module named ensurepip  ")))
    as [_ Htext].
  destruct (Htext ltac:(vm_compute; discriminate))
    as (line & rest & Hrun & Hsplit & _).
  exists line, rest. split; [exact Hrun | exact Hsplit].
Defined.

End TextFacts.

(** ** Configuration files *)

Section ConfigFacts.
Import Config.

Context {K : Type} `{Countable K} {V : Type}.

Implicit Types (config : gmap K V) (f : @file K _ _ V).

Lemma foldl_insert_union (l : list (K * V)) config :
  foldl (λ c p, <[p.1 := p.2]> c) config l
  = foldl (λ c p, <[p.1 := p.2]> c) ∅ l ∪ config.
Proof.
  revert config. induction l as [|[k v] l IH]; intros config; cbn [foldl].
  - by rewrite (left_id_L ∅ (∪)).
  - rewrite (IH (<[k:=v]> config)), (IH (<[k:=v]> ∅)).
    rewrite <- (assoc_L (∪)). f_equal.
    rewrite insert_union_singleton_l, insert_union_singleton_l.
    by rewrite (right_id_L ∅ (∪)).
Qed.

Lemma load_file_spec config f :
  load_file config f =
    match failure f with
    | Some e => Raise e
    | None => Return (contents f ∪ config)
    end.
Proof.
  destruct f as [[[| m | l | cls]|e]|]; cbn; try done.
  - by rewrite (left_id_L ∅ (∪)).
  - by rewrite foldl_insert_union.
  - by rewrite (left_id_L ∅ (∪)).
Qed.

(** When both files load, a key has the value [config.local.yaml] gives it,
    else the value [config.yaml] gives it, else none: the local file
    overrides the base file key by key and hides nothing else. *)
Theorem load_config_precedence (base_config local_config : @file K _ _ V) k :
  failure base_config = None → failure local_config = None →
  ∃ config,
    load_config base_config local_config = Return config ∧
    config !! k =
      match contents local_config !! k with
      | Some v => Some v
      | None => contents base_config !! k
      end.
Proof.
  intros Hb Hl. unfold load_config.
  rewrite load_file_spec, Hb. cbn. rewrite load_file_spec, Hl.
  eexists. split; [done|].
  rewrite (right_id_L ∅ (∪)), lookup_union.
  by destruct (contents local_config !! k), (contents base_config !! k).
Qed.

(** [load_config] has no fallback: it raises as soon as a file that exists
    cannot be loaded or holds a document [dict.update] rejects, the base
    file being read first. A file that is absent or empty never makes it
    fail. *)
Theorem load_config_failure (base_config local_config : @file K _ _ V) :
  load_config base_config local_config =
    match failure base_config, failure local_config with
    | Some e, _ => Raise e
    | None, Some e => Raise e
    | None, None =>
        Return (contents local_config ∪ contents base_config)
    end.
Proof.
  unfold load_config. rewrite load_file_spec.
  destruct (failure base_config) as [e|]; [done|]. cbn.
  rewrite load_file_spec. destruct (failure local_config); [done|].
  by rewrite (right_id_L ∅ (∪)).
Qed.

End ConfigFacts.

Lemma load_config_precedence_witness :
  ∃ config,
    Config.load_config
      (Some (Return (Config.Mapping
                       (<["week_start" := "sunday"]>
                          (<["distance_unit" := "mi"]> (∅ : gmap string string))))))
      (Some (Return (Config.Pairs [("distance_unit", "km")])))
      = Return config ∧
    config !! "distance_unit" = Some "km".
Proof.
  destruct (load_config_precedence
              (Some (Return (Config.Mapping
                       (<["week_start" := "sunday"]>
                          (<["distance_unit" := "mi"]> (∅ : gmap string string))))))
              (Some (Return (Config.Pairs [("distance_unit", "km")])))
              "distance_unit" eq_refl eq_refl)
    as (config & Hrun & Hk).
  exists config. split; [exact Hrun | exact Hk].
Defined.

(** ** The interpreter version check *)

(** The script refuses to start exactly for the versions below 3.9: the
    comparison is numeric and component-wise, so 3.10 is accepted, and the
    micro version never matters. *)
Theorem too_old_iff major minor rest :
  Startup.too_old (major :: minor :: rest) = true ↔
  (major < 3 ∨ (major = 3 ∧ minor < 9))%Z.
Proof.
  unfold Startup.too_old. cbn [Startup.tuple_lt].
  destruct (major <? 3)%Z eqn:H1; [apply Z.ltb_lt in H1; split; [lia|done]|].
  apply Z.ltb_ge in H1.
  destruct (3 <? major)%Z eqn:H2;
    [apply Z.ltb_lt in H2; split; [done | lia]|].
  apply Z.ltb_ge in H2.
  destruct (minor <? 9)%Z eqn:H3; [apply Z.ltb_lt in H3; split; [lia|done]|].
  apply Z.ltb_ge in H3.
  destruct (9 <? minor)%Z eqn:H4;
    [apply Z.ltb_lt in H4; split; [done | lia]|].
  destruct rest; (split; [done | lia]).
Qed.

(** ** The environment bootstrap *)

Section BootstrapFacts.
Import Script.
Import Trace (skipped).

Implicit Types (w : world) (args : Namespace).

Lemma run_stream_Return o : _run_stream o = Return tt ↔ o = Return 0%Z.
Proof.
  unfold _run_stream. destruct o as [rc|e]; cbn; [|done].
  destruct (rc =? 0)%Z eqn:Hrc.
  - apply Z.eqb_eq in Hrc. by subst.
  - apply Z.eqb_neq in Hrc. split; [done | by intros [= ->]].
Qed.

(** [_ensure_venv_pip] succeeds exactly when pip is there at the first
    probe, or is there at the second probe after [ensurepip] succeeded; in
    every other case it raises. *)
Theorem ensure_venv_pip_succeeds_iff w :
  _ensure_venv_pip w = Return tt ↔
  w_pip_probe w = Return 0%Z ∨
  (∃ rc, rc ≠ 0%Z ∧ w_pip_probe w = Return rc ∧
         w_ensurepip w = Return 0%Z ∧ w_pip_probe_again w = Return 0%Z).
Proof.
  unfold _ensure_venv_pip, _venv_has_pip.
  destruct (w_pip_probe w) as [rc|e]; cbn; [|naive_solver].
  destruct (rc =? 0)%Z eqn:Hrc; cbn.
  { apply Z.eqb_eq in Hrc. subst. naive_solver. }
  apply Z.eqb_neq in Hrc.
  destruct (w_ensurepip w) as [rc2|e]; cbn; [|naive_solver].
  destruct (rc2 =? 0)%Z eqn:Hrc2; cbn; [|apply Z.eqb_neq in Hrc2; naive_solver].
  apply Z.eqb_eq in Hrc2. subst rc2.
  destruct (w_pip_probe_again w) as [rc3|e]; cbn; [|naive_solver].
  destruct (rc3 =? 0)%Z eqn:Hrc3; cbn.
  - apply Z.eqb_eq in Hrc3. subst. naive_solver.
  - apply Z.eqb_neq in Hrc3. naive_solver.
Qed.

Lemma bootstrap_Return_skipped args w :
  _bootstrap_env_and_reexec args w = Return tt ↔ skipped args w = true.
Proof.
  unfold _bootstrap_env_and_reexec, skipped.
  destruct (no_bootstrap_env args || env_bootstrapped args
            || w_in_virtualenv w) eqn:Hflags; cbn [orb]; [done|].
  destruct (w_requirements_exists w); cbn [negb]; [|done].
  split; [|done].
  destruct (if negb (w_venv_python_exists w) then _ else _) as [[]|]; cbn;
    [|done].
  destruct (_ensure_venv_pip w) as [[]|]; cbn; [|done].
  destruct (_run_stream (w_pip_upgrade w)) as [[]|]; cbn; [|done].
  destruct (_run_stream (w_pip_install w)) as [[]|]; cbn; [|done].
  by destruct (w_reexec w).
Qed.

(** The bootstrap comes back to [main] only when it is skipped. Once it
    starts it always ends in an exception: [SystemExit] with the code of
    the re-executed script at best, the failure of a set-up step
    otherwise. *)
Theorem bootstrap_returns_iff_skipped args w :
  (_bootstrap_env_and_reexec args w = Return tt ↔ skipped args w = true) ∧
  (skipped args w = false →
     ∃ e, _bootstrap_env_and_reexec args w = Raise e).
Proof.
  split; [apply bootstrap_Return_skipped|].
  intros Hskip.
  destruct (_bootstrap_env_and_reexec args w) as [[]|e] eqn:Hb; [|by eauto].
  apply bootstrap_Return_skipped in Hb. congruence.
Qed.

Lemma bootstrap_returns_iff_skipped_witness :
  ∃ e, _bootstrap_env_and_reexec
         {| local_only := true; no_bootstrap_env := false;
            env_bootstrapped := false |} Cases.bootstrapping_run = Raise e.
Proof.
  apply (proj2 (bootstrap_returns_iff_skipped
                  {| local_only := true; no_bootstrap_env := false;
                     env_bootstrapped := false |} Cases.bootstrapping_run)).
  reflexivity.
Defined.

(** A process that bootstraps never runs the rest of [main]: when every
    set-up step succeeds, the script is re-executed and the process exits
    with the return code of that child, whatever the configuration and the
    pipeline of the parent would have given. *)
Theorem bootstrapped_run_exits_with_child w args child :
  w_parse_args w = Return args →
  skipped args w = false →
  (w_venv_python_exists w = false → w_create_venv w = Return 0%Z) →
  _ensure_venv_pip w = Return tt →
  w_pip_upgrade w = Return 0%Z →
  w_pip_install w = Return 0%Z →
  w_reexec w = Return child →
  main w = Raise (SystemExit (Some child)) ∧ run_script w = child.
Proof.
  unfold skipped. intros Hargs Hskip Hvenv Hpip Hup Hin Hchild.
  apply orb_false_iff in Hskip as [Hflags Hreq].
  apply negb_false_iff in Hreq.
  assert (_bootstrap_env_and_reexec args w = Raise (SystemExit (Some child)))
    as Hboot.
  { unfold _bootstrap_env_and_reexec. rewrite Hflags, Hreq. cbn [negb].
    destruct (w_venv_python_exists w); cbn [negb].
    - cbn. rewrite Hpip. cbn. rewrite Hup, Hin. cbn. by rewrite Hchild.
    - rewrite Hvenv by done. cbn. rewrite Hpip. cbn. rewrite Hup, Hin. cbn.
      by rewrite Hchild. }
  unfold run_script, main. rewrite Hargs. cbn. by rewrite Hboot.
Qed.

End BootstrapFacts.

Lemma bootstrapped_run_exits_with_child_witness :
  Script.main Cases.bootstrapping_run = Raise (SystemExit (Some 3%Z)) ∧
  Script.run_script Cases.bootstrapping_run = 3%Z.
Proof.
  refine (bootstrapped_run_exits_with_child Cases.bootstrapping_run _ 3%Z
            eq_refl eq_refl _ eq_refl eq_refl eq_refl eq_refl).
  reflexivity.
Defined.

(** ** The commands the script runs *)

Section TraceFacts.
Import Trace.

Variable join : list string → string.

Implicit Types (s : interp) (w : Script.world) (args : Script.Namespace).

Lemma out_bind {A B} (t : traced A) (k : A → traced B) :
  out (t ≫= k) = out t ≫= (λ a, out (k a)).
Proof. unfold mbind, traced_bind, outcome_bind. by destruct (out t). Qed.

Lemma log_bind {A B} (t : traced A) (k : A → traced B) :
  log (t ≫= k) =
    match out t with
    | Return a => (log t ++ log (k a))%list
    | Raise _ => log t
    end.
Proof. unfold mbind, traced_bind. by destruct (out t). Qed.

Lemma Forall_log_bind {A B} (P : invocation → Prop)
    (t : traced A) (k : A → traced B) :
  Forall P (log t) → (∀ a, Forall P (log (k a))) → Forall P (log (t ≫= k)).
Proof.
  intros Ht Hk. rewrite log_bind. destruct (out t); [|done].
  apply Forall_app. by split.
Qed.

Lemma length_log_bind {A B} (t : traced A) (k : A → traced B) (n m : nat) :
  (length (log t) ≤ n)%nat → (∀ a, (length (log (k a)) ≤ m)%nat) →
  (length (log (t ≫= k)) ≤ n + m)%nat.
Proof.
  intros Ht Hk. rewrite log_bind. destruct (out t) as [a|]; [|lia].
  rewrite length_app. specialize (Hk a). lia.
Qed.

(** Recording the commands changes no outcome. *)
Lemma ensure_venv_pip_out venv_python w :
  out (_ensure_venv_pip venv_python w) = Script._ensure_venv_pip w.
Proof.
  unfold _ensure_venv_pip, Script._ensure_venv_pip, _venv_has_pip.
  rewrite out_bind. cbn [out run].
  destruct (Script._venv_has_pip (Script.w_pip_probe w)) as [[]|];
    cbn [mbind outcome_bind]; [done| |done].
  rewrite out_bind. cbn [out run].
  destruct (Script.w_ensurepip w) as [rc|]; cbn [mbind outcome_bind]; [|done].
  destruct (negb (rc =? 0)%Z); [done|].
  rewrite out_bind. cbn [out run].
  by destruct (Script._venv_has_pip (Script.w_pip_probe_again w)) as [[]|].
Qed.

Lemma bootstrap_out s args w :
  out (_bootstrap_env_and_reexec join s args w)
  = Script._bootstrap_env_and_reexec args w.
Proof.
  unfold _bootstrap_env_and_reexec, Script._bootstrap_env_and_reexec.
  destruct (_ || _ || _); [done|].
  destruct (negb (Script.w_requirements_exists w)); [done|].
  rewrite !out_bind, ensure_venv_pip_out.
  by destruct (negb (Script.w_venv_python_exists w)).
Qed.

Lemma main_out s w : out (main join s w) = Script.main w.
Proof.
  unfold main, Script.main. rewrite out_bind. cbn [out pure].
  destruct (Script.w_parse_args w) as [args|]; cbn [mbind outcome_bind];
    [|done].
  rewrite out_bind, bootstrap_out.
  destruct (Script._bootstrap_env_and_reexec args w) as [[]|];
    cbn [mbind outcome_bind]; [|done].
  rewrite out_bind. cbn [out pure].
  destruct (Script.w_isatty w) as [interactive|]; cbn [mbind outcome_bind];
    [|done].
  destruct (Script.local_only args); [|done].
  rewrite !out_bind. cbn [out pure run].
  destruct (Script.w_load_config w) as [[]|]; cbn [mbind outcome_bind];
    [|done].
  destruct (Script.w_run_pipeline w) as [rc|]; cbn [mbind outcome_bind];
    [|done].
  by destruct (negb (rc =? 0)%Z).
Qed.

Lemma ensure_venv_pip_log venv_python w :
  Forall (λ i, head (cmd i) = Some venv_python)
    (log (_ensure_venv_pip venv_python w)) ∧
  (1 ≤ length (log (_ensure_venv_pip venv_python w)) ≤ 3)%nat.
Proof.
  unfold _ensure_venv_pip, _venv_has_pip.
  rewrite log_bind. cbn [out log run].
  destruct (Script._venv_has_pip (Script.w_pip_probe w)) as [[]|];
    [by split; [repeat constructor | cbn; lia]
    | | by split; [repeat constructor | cbn; lia]].
  rewrite log_bind. cbn [out log run].
  destruct (Script.w_ensurepip w) as [rc|];
    [|by split; [repeat constructor | cbn; lia]].
  destruct (negb (rc =? 0)%Z);
    [by split; [repeat constructor | cbn; lia]|].
  rewrite log_bind. cbn [out log run].
  destruct (Script._venv_has_pip (Script.w_pip_probe_again w)) as [[]|];
    by split; [repeat constructor | cbn; lia].
Qed.

Lemma bootstrap_log_nil s args w :
  log (_bootstrap_env_and_reexec join s args w) = [] ↔ skipped args w = true.
Proof.
  unfold _bootstrap_env_and_reexec, skipped.
  destruct (_ || _ || _); cbn [orb]; [done|].
  destruct (Script.w_requirements_exists w); cbn [negb]; [|done].
  split; [|done]. intros Hlog. exfalso.
  rewrite log_bind in Hlog.
  destruct (Script.w_venv_python_exists w); cbn [negb] in Hlog.
  - cbn [out log pure app] in Hlog. rewrite log_bind in Hlog.
    pose proof (ensure_venv_pip_log
                  (_venv_python_path join s (join [root s; VENV_DIRNAME])) w)
      as [_ Hlen].
    destruct (out (_ensure_venv_pip _ w));
      [apply app_eq_nil in Hlog as [Hlog _]|]; rewrite Hlog in Hlen;
      cbn in Hlen; lia.
  - cbn [_run_stream run log out] in Hlog.
    by destruct (Script._run_stream (Script.w_create_venv w)).
Qed.

(** No command is run when the bootstrap is skipped, and at least one is
    when it is not. *)
Theorem bootstrap_runs_nothing_iff_skipped s args w :
  (log (_bootstrap_env_and_reexec join s args w) = [] ↔
     skipped args w = true) ∧
  (skipped args w = true →
     out (_bootstrap_env_and_reexec join s args w) = Return tt).
Proof.
  split; [apply bootstrap_log_nil|].
  intros Hskip. rewrite bootstrap_out.
  by apply bootstrap_Return_skipped.
Qed.

(** Apart from the creation of the virtual environment, which is the first
    command and is run only when the interpreter of the environment does
    not exist yet, every command of the bootstrap is run with the
    interpreter of the virtual environment, never with the one that runs
    the script; there are at most six of them. *)
Theorem bootstrap_commands_use_venv_python s args w :
  skipped args w = false →
  let venv_dir := join [root s; VENV_DIRNAME] in
  let venv_python := _venv_python_path join s venv_dir in
  ∃ rest,
    log (_bootstrap_env_and_reexec join s args w) =
      ((if Script.w_venv_python_exists w then []
        else [ {| cmd := [executable s; "-m"; "venv"; venv_dir];
                  cwd := Some (root s) |} ]) ++ rest)%list ∧
    Forall (λ i, head (cmd i) = Some venv_python) rest ∧
    (length rest ≤ 6)%nat.
Proof.
  intros Hskip venv_dir venv_python. unfold skipped in Hskip.
  apply orb_false_iff in Hskip as [Hflags Hreq].
  apply negb_false_iff in Hreq.
  unfold _bootstrap_env_and_reexec. rewrite Hflags, Hreq. cbn [negb].
  fold venv_dir. fold venv_python.
  set (after := _ensure_venv_pip venv_python w ≫= _).
  assert (Forall (λ i, head (cmd i) = Some venv_python) (log after) ∧
          (length (log after) ≤ 3 + (1 + (1 + (1 + 0))))%nat) as [Hall Hlen].
  { subst after. split.
    - apply Forall_log_bind; [apply ensure_venv_pip_log|]. intros _.
      apply Forall_log_bind; [by repeat constructor|]. intros _.
      apply Forall_log_bind; [by repeat constructor|]. intros _.
      apply Forall_log_bind; [by repeat constructor|]. intros child.
      constructor.
    - apply length_log_bind; [apply ensure_venv_pip_log|]. intros _.
      apply length_log_bind; [done|]. intros _.
      apply length_log_bind; [done|]. intros _.
      apply length_log_bind; [done|]. intros child. done. }
  rewrite log_bind.
  destruct (Script.w_venv_python_exists w); cbn [negb].
  - cbn [out log pure]. exists (log after). split_and!; [done | done | lia].
  - cbn [_run_stream run out log].
    destruct (Script._run_stream (Script.w_create_venv w)).
    + exists (log after). split_and!; [done | done | lia].
    + exists []. rewrite app_nil_r. split_and!; [done | done | cbn; lia].
Qed.

(** When installing the requirements fails, the run ends there with
    [CalledProcessError], reported as exit code 1, and the installation is
    the last command run: the script is not re-executed. *)
Theorem failed_install_stops_bootstrap s args w rc :
  Script.w_parse_args w = Return args →
  skipped args w = false →
  (Script.w_venv_python_exists w = false →
     Script.w_create_venv w = Return 0%Z) →
  Script._ensure_venv_pip w = Return tt →
  Script.w_pip_upgrade w = Return 0%Z →
  Script.w_pip_install w = Return rc → rc ≠ 0%Z →
  let requirements := join [root s; "requirements.txt"] in
  let venv_python :=
    _venv_python_path join s (join [root s; VENV_DIRNAME]) in
  last (log (main join s w)) =
    Some {| cmd := [venv_python; "-m"; "pip"; "install"; "-r"; requirements];
            cwd := Some (root s) |} ∧
  out (main join s w) = Raise (Exception "CalledProcessError") ∧
  Script.run_script w = 1%Z.
Proof.
  intros Hargs Hskip Hvenv Hpip Hup Hin Hrc requirements venv_python.
  unfold skipped in Hskip.
  apply orb_false_iff in Hskip as [Hflags Hreq].
  apply negb_false_iff in Hreq. apply Z.eqb_neq in Hrc.
  assert (Script._bootstrap_env_and_reexec args w
          = Raise (Exception "CalledProcessError")) as Hboot.
  { unfold Script._bootstrap_env_and_reexec.
    rewrite Hflags, Hreq. cbn [negb].
    destruct (Script.w_venv_python_exists w); cbn [negb].
    - cbn. rewrite Hpip. cbn. rewrite Hup, Hin. cbn. by rewrite Hrc.
    - rewrite Hvenv by done. cbn. rewrite Hpip. cbn. rewrite Hup, Hin. cbn.
      by rewrite Hrc. }
  assert (Script.main w = Raise (Exception "CalledProcessError")) as Hmain.
  { unfold Script.main. rewrite Hargs. cbn. by rewrite Hboot. }
  split_and!; [|by rewrite main_out|by unfold Script.run_script; rewrite Hmain].
  unfold main. rewrite log_bind. cbn [out log pure]. rewrite Hargs.
  cbn [app]. rewrite log_bind, bootstrap_out, Hboot.
  unfold _bootstrap_env_and_reexec. rewrite Hflags, Hreq. cbn [negb].
  fold requirements. fold venv_python.
  rewrite log_bind.
  assert (out (if negb (Script.w_venv_python_exists w)
               then _run_stream
                      [executable s; "-m"; "venv"; join [root s; VENV_DIRNAME]]
                      (root s) (Script.w_create_venv w)
               else pure (Return tt)) = Return tt) as ->.
  { destruct (Script.w_venv_python_exists w); cbn [negb]; [done|].
    cbn [_run_stream run out]. by rewrite Hvenv. }
  rewrite log_bind, ensure_venv_pip_out, Hpip.
  rewrite log_bind. cbn [_run_stream run out log]. rewrite Hup.
  cbn [Script._run_stream mbind outcome_bind Z.eqb].
  rewrite log_bind. cbn [_run_stream run out log]. rewrite Hin.
  cbn [Script._run_stream mbind outcome_bind]. rewrite Hrc.
  by rewrite !last_app.
Qed.

Lemma filter_flag_twice (l : list string) :
  filter (λ arg, arg = ENV_BOOTSTRAPPED)
    (filter (λ arg, arg ≠ ENV_BOOTSTRAPPED) l) = [] ∧
  filter (λ arg, arg ≠ ENV_BOOTSTRAPPED)
    (filter (λ arg, arg ≠ ENV_BOOTSTRAPPED) l)
  = filter (λ arg, arg ≠ ENV_BOOTSTRAPPED) l.
Proof.
  induction l as [|a l [IH1 IH2]]; [done|].
  rewrite (filter_cons (λ arg, arg ≠ ENV_BOOTSTRAPPED)).
  case_decide as Ha; [|done]. split.
  - by rewrite filter_cons, decide_False.
  - rewrite filter_cons, decide_True by done. by f_equal.
Qed.

Lemma child_args_keep s :
  filter (λ arg, arg ≠ ENV_BOOTSTRAPPED) (child_args s)
  = filter (λ arg, arg ≠ ENV_BOOTSTRAPPED) (drop 1 (argv s)).
Proof.
  unfold child_args. rewrite filter_app. cbn. rewrite app_nil_r.
  apply filter_flag_twice.
Qed.

(** The arguments of the re-executed script are the arguments of the
    parent, in order and without the program name, with
    [--env-bootstrapped] removed wherever it occurred and added once at the
    end. *)
Theorem child_args_flag_once s :
  last (child_args s) = Some ENV_BOOTSTRAPPED ∧
  length (filter (λ arg, arg = ENV_BOOTSTRAPPED) (child_args s)) = 1 ∧
  filter (λ arg, arg ≠ ENV_BOOTSTRAPPED) (child_args s)
  = filter (λ arg, arg ≠ ENV_BOOTSTRAPPED) (drop 1 (argv s)).
Proof.
  split_and!; [apply last_snoc | | apply child_args_keep].
  unfold child_args. rewrite filter_app. cbn.
  by rewrite (proj1 (filter_flag_twice _)).
Qed.

(** The pipeline is run at most once and only by a process that skipped
    the bootstrap, could ask for the terminal, was given [--local-only] and
    could load its configuration; it is then the only command of the
    process. A process that bootstraps runs nothing after the bootstrap. *)
Theorem pipeline_only_without_bootstrap s w args :
  Script.w_parse_args w = Return args →
  (skipped args w = false →
     log (main join s w) = log (_bootstrap_env_and_reexec join s args w)) ∧
  (skipped args w = true →
     log (main join s w) =
       match Script.w_isatty w with
       | Raise _ => []
       | Return _ =>
           if Script.local_only args then
             match Script.w_load_config w with
             | Return _ =>
                 [ {| cmd := [executable s; "scripts/run_pipeline.py"];
                      cwd := Some (resolved_root s) |} ]
             | Raise _ => []
             end
           else []
       end).
Proof.
  intros Hargs. unfold main. rewrite log_bind. cbn [out log pure].
  rewrite Hargs. cbn [app]. rewrite log_bind, bootstrap_out. split.
  - intros Hskip.
    destruct (Script._bootstrap_env_and_reexec args w) as [[]|] eqn:Hb;
      [|done].
    apply bootstrap_Return_skipped in Hb. congruence.
  - intros Hskip.
    rewrite (proj2 (bootstrap_Return_skipped args w) Hskip).
    rewrite (proj2 (bootstrap_log_nil s args w) Hskip).
    cbn [app]. rewrite log_bind. cbn [out log pure].
    destruct (Script.w_isatty w) as [interactive|]; [|done]. cbn [app].
    destruct (Script.local_only args); [|done].
    rewrite log_bind. cbn [out log pure].
    destruct (Script.w_load_config w) as [[]|]; [|done]. cbn [app].
    rewrite log_bind. cbn [out log run].
    destruct (Script.w_run_pipeline w) as [rc|]; [|done].
    by destruct (negb (rc =? 0)%Z).
Qed.


End TraceFacts.


Lemma bootstrap_commands_use_venv_python_witness :
  ∃ rest,
    Trace.log (Trace._bootstrap_env_and_reexec Cases.posix_join
                 Cases.interpreter
                 {| Script.local_only := true;
                    Script.no_bootstrap_env := false;
                    Script.env_bootstrapped := false |}
                 Cases.bootstrapping_run)
    = ({| Trace.cmd := ["/usr/bin/python3"; "-m"; "venv"; "/repo/.venv"];
          Trace.cwd := Some "/repo" |} :: rest) ∧
    Forall (λ i, head (Trace.cmd i) = Some "/repo/.venv/bin/python") rest.
Proof.
  destruct (bootstrap_commands_use_venv_python Cases.posix_join
              Cases.interpreter
              {| Script.local_only := true;
                 Script.no_bootstrap_env := false;
                 Script.env_bootstrapped := false |}
              Cases.bootstrapping_run eq_refl)
    as (rest & Hlog & Hall & _).
  exists rest. split; [exact Hlog | exact Hall].
Defined.

Lemma failed_install_stops_bootstrap_witness :
  Trace.out (Trace.main Cases.posix_join Cases.interpreter
               Cases.failing_install_run)
    = Raise (Exception "CalledProcessError") ∧
  Script.run_script Cases.failing_install_run = 1%Z.
Proof.
  refine (proj2 (failed_install_stops_bootstrap Cases.posix_join
                   Cases.interpreter _ Cases.failing_install_run 1%Z
                   eq_refl eq_refl _ eq_refl eq_refl eq_refl _)).
  - reflexivity.
  - discriminate.
Defined.

Lemma pipeline_only_without_bootstrap_witness :
  Trace.log (Trace.main Cases.posix_join
               (Cases.interpreter_with ["--local-only"; "--no-bootstrap-env"])
               (Sample.local_run 0))
  = [ {| Trace.cmd := ["/usr/bin/python3"; "scripts/run_pipeline.py"];
         Trace.cwd := Some "/repo" |} ].
Proof.
  refine (proj2 (pipeline_only_without_bootstrap Cases.posix_join
                   (Cases.interpreter_with
                      ["--local-only"; "--no-bootstrap-env"])
                   (Sample.local_run 0) _ eq_refl) _).
  reflexivity.
Defined.

Lemma bootstrap_runs_nothing_iff_skipped_witness :
  Trace.out (Trace._bootstrap_env_and_reexec Cases.posix_join
               (Cases.interpreter_with ["--local-only"; "--no-bootstrap-env"])
               {| Script.local_only := true;
                  Script.no_bootstrap_env := true;
                  Script.env_bootstrapped := false |}
               (Sample.local_run 0)) = Return tt.
Proof.
  apply (proj2 (bootstrap_runs_nothing_iff_skipped Cases.posix_join
                  (Cases.interpreter_with
                     ["--local-only"; "--no-bootstrap-env"])
                  {| Script.local_only := true;
                     Script.no_bootstrap_env := true;
                     Script.env_bootstrapped := false |}
                  (Sample.local_run 0))).
  reflexivity.
Defined.

(** ** Repository slug resolution, further *)

Section RepoMore.
Import Repo.

Variable normalize : option string → option string.
Variable strip : string → string.

Lemma resolve_Return_inv explicit e resolved :
  _resolve_repo_slug normalize strip explicit e = Return resolved →
  ∃ from_git from_gh,
    resolved = first_normalized normalize
                 [explicit; from_git; environ_GH_REPO e; from_gh] ∧
    ∀ other,
      _resolve_repo_slug normalize strip other e
      = Return (first_normalized normalize
                  [other; from_git; environ_GH_REPO e; from_gh]).
Proof.
  unfold _resolve_repo_slug, candidates_of.
  destruct (_repo_slug_from_git normalize strip e) as [from_git|]; cbn;
    [|done].
  destruct (_repo_slug_from_gh_context normalize strip e) as [from_gh|]; cbn;
    [|done].
  intros [= <-]. by exists from_git, from_gh.
Qed.

(** A resolved slug is never the empty string, and it is always a value of
    the normalizer: the resolution returns no raw candidate. *)
Theorem resolved_slug_is_normalized explicit e slug :
  _resolve_repo_slug normalize strip explicit e = Return (Some slug) →
  slug ≠ "" ∧ ∃ candidate, normalize candidate = Some slug.
Proof.
  intros (from_git & from_gh & Hres & _)%resolve_Return_inv.
  symmetry in Hres. apply first_normalized_Some in Hres
    as (i & candidate & _ & Hn & Hne & _).
  by eauto.
Qed.

(** An explicit repository that normalizes to a slug is the answer,
    whatever the remote of the working tree, [GH_REPO] and [gh] say, as
    long as the two commands could be run. *)
Theorem explicit_repo_wins explicit e git gh slug :
  run_git_remote e = Return git →
  run_gh_repo_view e = Return gh →
  normalize explicit = Some slug → slug ≠ "" →
  _resolve_repo_slug normalize strip explicit e = Return (Some slug).
Proof.
  intros Hgit Hgh Hn Hne.
  unfold _resolve_repo_slug, candidates_of, _repo_slug_from_git,
    _repo_slug_from_gh_context.
  rewrite Hgit, Hgh. cbn.
  destruct (negb (returncode git =? 0)%Z), (negb (returncode gh =? 0)%Z);
    cbn; unfold _normalize_repo_slug; rewrite Hn; cbn;
    by rewrite (proj2 (truthy_true_iff slug) Hne).
Qed.

(** When the normalizer leaves its own results unchanged, resolution is
    stable: passing a resolved slug back as the explicit repository, in the
    same environment, resolves to the same slug. *)
Theorem resolve_again_is_stable explicit e slug :
  (∀ value normalized,
     normalize value = Some normalized →
     normalize (Some normalized) = Some normalized) →
  _resolve_repo_slug normalize strip explicit e = Return (Some slug) →
  _resolve_repo_slug normalize strip (Some slug) e = Return (Some slug).
Proof.
  intros Hidem Hres.
  apply resolve_Return_inv in Hres as (from_git & from_gh & Hres & Hother).
  symmetry in Hres. apply first_normalized_Some in Hres
    as (i & candidate & _ & Hn & Hne & _).
  rewrite Hother. cbn [first_normalized]. unfold _normalize_repo_slug.
  rewrite (Hidem _ _ Hn). cbn.
  by rewrite (proj2 (truthy_true_iff slug) Hne).
Qed.

End RepoMore.

Lemma resolve_repo_slug_raises_witness :
  Repo._resolve_repo_slug Sample.keep_slashed id (Some "octo/dashboard")
    Cases.no_git_env = Raise (Exception "FileNotFoundError").
Proof.
  apply (resolve_repo_slug_raises Sample.keep_slashed id).
  left. reflexivity.
Defined.

Lemma resolved_slug_is_normalized_witness :
  "octo/dashboard" ≠ "" ∧
  ∃ candidate, Sample.keep_slashed candidate = Some "octo/dashboard".
Proof.
  apply (resolved_slug_is_normalized Sample.keep_slashed id
           (Some "not-a-slug") Sample.repo_env).
  reflexivity.
Defined.

Lemma explicit_repo_wins_witness :
  Repo._resolve_repo_slug Sample.keep_slashed id (Some "me/mine")
    Sample.repo_env = Return (Some "me/mine").
Proof.
  apply (explicit_repo_wins Sample.keep_slashed id (Some "me/mine")
           Sample.repo_env _ _ "me/mine" eq_refl eq_refl eq_refl).
  discriminate.
Defined.

Lemma resolve_again_is_stable_witness :
  Repo._resolve_repo_slug Sample.keep_slashed id (Some "octo/dashboard")
    Sample.repo_env = Return (Some "octo/dashboard").
Proof.
  apply (resolve_again_is_stable Sample.keep_slashed id
           (Some "not-a-slug") Sample.repo_env).
  - intros [value|] normalized; cbn; [|discriminate].
    destruct (Sample.has_slash value) eqn:Hs; [|discriminate].
    intros [= <-]. by rewrite Hs.
  - reflexivity.
Defined.
